(** * useStableRef: the stable reference cell hook

    A shallow embedding of [useStableRef] and of the three hooks it
    dispatches to ([useSimpleRef], [useNonDisposableStableRef],
    [useDisposableStableRef]).  The host framework is modelled as far as the
    hook uses it: a heap of cell objects addressed by identity, the
    memoisation slot of the call site, the effect slot with its dependency
    list and its destroy closure, and the render / commit / unmount phases.
    User callbacks are opaque state transformers over a world; every call of
    a builder or cleanup and every assignment to a cell's [current] is
    recorded in a chronological trace. *)

From stdpp Require Import base list strings numbers.

(** ** JavaScript values *)

Definition addr := nat.
Definition fid := nat.

(** The payload type [T | RefCreator<T>]: plain data, object references
    (compared by identity) and function references. *)
Inductive value :=
| VUndefined
| VNull
| VBoolean (b : bool)
| VNumber (n : Z)
| VString (s : string)
| VObject (a : addr)
| VFunction (f : fid).

#[global] Instance value_eq_dec : EqDecision value.
Proof. solve_decision. Defined.

Abbreviation DependencyList := (list value).

(** A dependency array is an object of the caller.  Where a hook keeps the
    array it was given, it keeps this reference, not a copy, and the
    caller may change what the array contains afterwards. *)
Definition array_ref := nat.

(** [T | typeof unique_symbol]: what a cell's slot holds.  The module's
    private sentinel is kept apart from the values user code handles: a
    builder that returns the sentinel, or an owner that assigns it after
    reading it from an eager cell, is outside this model. *)
Inductive slot :=
| unique_symbol
| Held (v : value).

Definition is_unique_symbol (s : slot) : bool :=
  match s with unique_symbol => true | Held _ => false end.

Definition isFunction (v : value) : bool :=
  match v with VFunction _ => true | _ => false end.

Definition isNil {A : Type} (x : option A) : bool :=
  match x with None => true | Some _ => false end.

(** ** Completions: a call either returns or throws *)

Inductive error :=
| Error (message : string)
| TypeError (message : string).

Inductive completion (A : Type) :=
| Returned (a : A)
| Threw (e : error).
Arguments Returned {A} a.
Arguments Threw {A} e.

#[global] Instance completion_bind : MBind completion :=
  fun A B k c => match c with Returned a => k a | Threw e => Threw e end.

Definition UninitializedAccess : error :=
  Error "Stable ref is not available during render phase.".
Definition DisposedAccess : error :=
  Error "Stable was disposed and is no longer available.".
Definition NotAFunction : error := TypeError "is not a function".
Definition NoSuchObject : error := TypeError "Cannot access properties of undefined".

(** ** External collaborators *)

(** User code: calling function [f] on arguments in a world gives a result
    and a new world.  A callback that throws, or that itself assigns to a
    cell, is outside this model: the hooks catch nothing, so an exception
    of a callback would leave the hook with it. *)
Class Callbacks := {
  World : Type;
  js_apply : fid -> list value -> World -> value * World
}.

(** [shallowCompare] of react-global-state-hooks, applied to the recorded
    dependencies (possibly [undefined]) and the current ones: it is handed
    what the two arrays contain at the moment it is called. *)
Class ShallowCompare :=
  shallowCompare : option DependencyList -> option DependencyList -> bool.

(** The host's comparison of an effect's next and previous dependency
    arrays. *)
Class HookInputs :=
  areHookInputsEqual : list value -> list value -> bool.

(** ** Heap objects, events and the host state *)

Inductive phase := Idle | Render | Commit | Unmount.

#[global] Instance phase_eq_dec : EqDecision phase.
Proof. solve_decision. Defined.

Inductive event :=
| EvBuilder (ph : phase) (builder : value) (result : value)
| EvCleanup (ph : phase) (cleanup : fid) (arg : value)
| EvAssign (ph : phase) (ref : addr) (v : value).

#[global] Instance event_eq_dec : EqDecision event.
Proof. solve_decision. Defined.

Definition is_builder_event (e : event) : bool :=
  match e with EvBuilder _ _ _ => true | _ => false end.
Definition is_cleanup_event (e : event) : bool :=
  match e with EvCleanup _ _ _ => true | _ => false end.
Definition event_phase (e : event) : phase :=
  match e with
  | EvBuilder ph _ _ | EvCleanup ph _ _ | EvAssign ph _ _ => ph
  end.

(** The cell objects of the source:
    - [RefObject]: what [useRef] returns, [{ current }];
    - [StableRef]: the memoised [{ current, dependencies }] of
      [useNonDisposableStableRef], whose [dependencies] is the caller's
      array itself;
    - [Wrapper]: the memoised wrapper of [useDisposableStableRef], whose
      [current] is an accessor over the closure variable [current], next to
      the data field [isInitialized];
    - [PlainWrapper]: the wrapper of the earlier one-hook [useStableRef]
      (src/useStableRef.ts), the same without the sentinel. *)
Inductive obj :=
| RefObject (current : value)
| StableRef (current : slot) (dependencies : option array_ref)
| Wrapper (current : slot) (isInitialized : bool)
| PlainWrapper (current : value) (isInitialized : bool).

(** Reading [o.current]. *)
Definition get_current (o : obj) : completion slot :=
  match o with
  | RefObject c => Returned (Held c)
  | StableRef c _ => Returned c
  | Wrapper c isInitialized =>
      if negb isInitialized then Threw UninitializedAccess
      else if is_unique_symbol c then Threw DisposedAccess
      else Returned c
  | PlainWrapper c isInitialized =>
      if negb isInitialized then Threw UninitializedAccess
      else Returned (Held c)
  end.

(** Executing [o.current = v]. *)
Definition set_current (v : value) (o : obj) : completion obj :=
  match o with
  | RefObject _ => Returned (RefObject v)
  | StableRef _ d => Returned (StableRef (Held v) d)
  | Wrapper _ i => Returned (Wrapper (Held v) i)
  | PlainWrapper _ i => Returned (PlainWrapper v i)
  end.

(** Reading [o.dependencies] ([undefined] where the object has no such
    field). *)
Definition get_dependencies (o : obj) : option array_ref :=
  match o with StableRef _ d => d | _ => None end.

Definition set_dependencies (d : option array_ref) (o : obj) : obj :=
  match o with StableRef c _ => StableRef c d | _ => o end.

Definition set_isInitialized (b : bool) (o : obj) : obj :=
  match o with
  | Wrapper c _ => Wrapper c b
  | PlainWrapper c _ => PlainWrapper c b
  | _ => o
  end.

(** ** Mode selection: the body of [useStableRef] *)

(** The second parameter, [CleanupFunction<T> | React.DependencyList]. *)
Inductive param2_t :=
| Param2Cleanup (f : fid)
| Param2Deps (d : DependencyList).

Definition isFunction2 (p : option param2_t) : bool :=
  match p with Some (Param2Cleanup _) => true | _ => false end.

Definition as_dependencies (p : option param2_t) : option DependencyList :=
  match p with Some (Param2Deps d) => Some d | _ => None end.

Definition as_cleanup (p : option param2_t) : option fid :=
  match p with Some (Param2Cleanup f) => Some f | _ => None end.

(** The hook [useStableRef] ends in, with its arguments.  The two [isNil]
    tests of the source are the two matches on [None]. *)
Inductive hook_call :=
| UseSimpleRef (v : value)
| UseNonDisposableStableRef (builder : value) (dependencies : DependencyList)
| UseDisposableStableRef (builder : value) (cleanup : fid)
    (dependencies : DependencyList).

Definition useStableRef (param1 : value) (param2 : option param2_t)
    (param3 : option DependencyList) : hook_call :=
  let dependencies :=
    if isFunction2 param2 then param3 else as_dependencies param2 in
  match dependencies with
  | None => UseSimpleRef param1
  | Some dependencies =>
      let builder := param1 in
      let cleanup := if isFunction2 param2 then as_cleanup param2 else None in
      match cleanup with
      | None => UseNonDisposableStableRef builder dependencies
      | Some cleanup => UseDisposableStableRef builder cleanup dependencies
      end
  end.

Definition count_builds (tr : list event) : nat :=
  length (filter (fun e => is_builder_event e = true) tr).
Definition count_cleanups (tr : list event) : nat :=
  length (filter (fun e => is_cleanup_event e = true) tr).

Section Host.
Context `{Callbacks}.

Record host := {
  heap : list obj;
  world : World;
  current_phase : phase;
  trace : list event
}.

Definition initial_host (w : World) : host :=
  {| heap := []; world := w; current_phase := Idle; trace := [] |}.

Definition with_heap (hp : list obj) (h : host) : host :=
  {| heap := hp; world := world h; current_phase := current_phase h;
     trace := trace h |}.
Definition with_world (w : World) (h : host) : host :=
  {| heap := heap h; world := w; current_phase := current_phase h;
     trace := trace h |}.
Definition enter (ph : phase) (h : host) : host :=
  {| heap := heap h; world := world h; current_phase := ph;
     trace := trace h |}.
Definition emit (e : event) (h : host) : host :=
  {| heap := heap h; world := world h; current_phase := current_phase h;
     trace := trace h ++ [e] |}.

(** A new object gets the next free address. *)
Definition alloc (o : obj) (h : host) : addr * host :=
  (length (heap h), with_heap (heap h ++ [o]) h).

(** [ref.current] on the heap. *)
Definition read_current (ref : addr) (h : host) : completion slot :=
  match heap h !! ref with
  | Some o => get_current o
  | None => Threw NoSuchObject
  end.

(** [ref.current = v] on the heap. *)
Definition write_current (ref : addr) (v : value) (h : host)
  : completion host :=
  match heap h !! ref with
  | Some o =>
      o' ← set_current v o;
      Returned (emit (EvAssign (current_phase h) ref v)
                     (with_heap (<[ref := o']> (heap h)) h))
  | None => Threw NoSuchObject
  end.

Definition read_dependencies (ref : addr) (h : host)
  : completion (option array_ref) :=
  match heap h !! ref with
  | Some o => Returned (get_dependencies o)
  | None => Threw NoSuchObject
  end.

Definition write_dependencies (ref : addr) (d : option array_ref)
    (h : host) : completion host :=
  match heap h !! ref with
  | Some o => Returned (with_heap (<[ref := set_dependencies d o]> (heap h)) h)
  | None => Threw NoSuchObject
  end.

Definition write_isInitialized (ref : addr) (b : bool) (h : host)
  : completion host :=
  match heap h !! ref with
  | Some o => Returned (with_heap (<[ref := set_isInitialized b o]> (heap h)) h)
  | None => Threw NoSuchObject
  end.

(** [builder()]: a call of a non-function throws a [TypeError]. *)
Definition call_builder (builder : value) (h : host)
  : completion (value * host) :=
  match builder with
  | VFunction f =>
      let '(result, w) := js_apply f [] (world h) in
      Returned (result,
                emit (EvBuilder (current_phase h) builder result)
                     (with_world w h))
  | _ => Threw NotAFunction
  end.

(** [cleanup(arg)], its result dropped. *)
Definition call_cleanup (cleanup : fid) (arg : value) (h : host) : host :=
  let '(_, w) := js_apply cleanup [arg] (world h) in
  emit (EvCleanup (current_phase h) cleanup arg) (with_world w h).

(** [useRef(initial)] and [useMemo(factory, [])]: the call site's slot
    keeps the object made on the first cycle. *)
Definition useRef (memo : option addr) (initial : value) (h : host)
  : addr * host :=
  match memo with
  | Some ref => (ref, h)
  | None => alloc (RefObject initial) h
  end.

Definition useMemo (memo : option addr) (factory : obj) (h : host)
  : addr * host :=
  match memo with
  | Some ref => (ref, h)
  | None => alloc factory h
  end.

(** ** useSimpleRef *)

Definition useSimpleRef (memo : option addr) (v : value) (h : host)
  : completion (addr * host) :=
  let '(ref, h) := useRef memo v h in
  h ← write_current ref v h;
  Returned (ref, h).

(** One recompute cycle of a passthrough call site. *)
Definition simple_cycle (memo : option addr) (v : value) (h : host)
  : completion (addr * host) :=
  useSimpleRef memo v (enter Render h).

Fixpoint simple_run (memo : option addr) (vs : list value) (h : host)
  : completion (option addr * host) :=
  match vs with
  | [] => Returned (memo, h)
  | v :: vs =>
      '(ref, h) ← simple_cycle memo v h;
      simple_run (Some ref) vs h
  end.

(** The cell returned by each cycle of a run. *)
Fixpoint simple_refs (memo : option addr) (vs : list value) (h : host)
  : list addr :=
  match vs with
  | [] => []
  | v :: vs =>
      match simple_cycle memo v h with
      | Returned (ref, h) => ref :: simple_refs (Some ref) vs h
      | Threw _ => []
      end
  end.

(** ** useNonDisposableStableRef *)

Section Eager.
Context `{ShallowCompare}.

(** The hook body.  [dependencies] is the array passed on this cycle and
    [arrays] what every array of the caller contains while the hook runs:
    [shallowCompare] is handed the array recorded on the cycle before, as
    it is now, and the array passed now; the last statement records the
    array passed, by reference. *)
Definition useNonDisposableStableRef (memo : option addr)
    (builder : value) (dependencies : array_ref)
    (arrays : array_ref -> DependencyList) (h : host)
  : completion (addr * host) :=
  let '(ref, h) := useMemo memo (StableRef unique_symbol None) h in
  cur ← read_current ref h;
  prev ← read_dependencies ref h;
  let isFirstRun := is_unique_symbol cur in
  let shouldBuild :=
    isFunction builder
    && (isFirstRun
        || negb (shallowCompare (arrays <$> prev)
                   (Some (arrays dependencies)))) in
  h ← (if shouldBuild
       then '(v, h) ← call_builder builder h; write_current ref v h
       else Returned h);
  h ← write_dependencies ref (Some dependencies) h;
  Returned (ref, h).

(** The arguments of one cycle: the builder, the array passed as
    dependencies, and the contents of the caller's arrays at that
    moment. *)
Record eager_props := {
  e_builder : value;
  e_array : array_ref;
  e_arrays : array_ref -> DependencyList
}.

(** The dependency sequence of the cycle: what the array passed
    contains. *)
Definition e_dependencies (p : eager_props) : DependencyList :=
  e_arrays p (e_array p).

(** The guard of the hook on a cell holding [c] with recorded
    array [d]. *)
Definition shouldBuild (c : slot) (d : option array_ref)
    (p : eager_props) : bool :=
  isFunction (e_builder p)
  && (is_unique_symbol c
      || negb (shallowCompare (e_arrays p <$> d)
                 (Some (e_dependencies p)))).

(** Whether the coming cycle rebuilds: the guard on the cell as it is,
    or on the cell [useMemo] is about to make. *)
Definition triggers_rebuild (memo : option addr) (p : eager_props)
    (h : host) : bool :=
  match memo with
  | None => shouldBuild unique_symbol None p
  | Some ref =>
      match heap h !! ref with
      | Some (StableRef c d) => shouldBuild c d p
      | _ => false
      end
  end.

Definition eager_cycle (memo : option addr) (p : eager_props) (h : host)
  : completion (addr * host) :=
  useNonDisposableStableRef memo (e_builder p) (e_array p) (e_arrays p)
    (enter Render h).

Fixpoint eager_run (memo : option addr) (ps : list eager_props)
    (h : host) : completion (option addr * host) :=
  match ps with
  | [] => Returned (memo, h)
  | p :: ps =>
      '(ref, h) ← eager_cycle memo p h;
      eager_run (Some ref) ps h
  end.

Fixpoint eager_refs (memo : option addr) (ps : list eager_props)
    (h : host) : list addr :=
  match ps with
  | [] => []
  | p :: ps =>
      match eager_cycle memo p h with
      | Returned (ref, h) => ref :: eager_refs (Some ref) ps h
      | Threw _ => []
      end
  end.

(** Number of cycles of [ps] at which [shallowCompare] finds the array
    recorded on the cycle before ([prev] for the first of them), as it is
    at that cycle, different from the array passed. *)
Fixpoint changes (prev : array_ref) (ps : list eager_props) : nat :=
  match ps with
  | [] => 0
  | p :: ps =>
      (if shallowCompare (Some (e_arrays p prev)) (Some (e_dependencies p))
       then 0 else 1) + changes (e_array p) ps
  end.

Fixpoint all_equal (prev : array_ref) (ps : list eager_props) : bool :=
  match ps with
  | [] => true
  | p :: ps =>
      shallowCompare (Some (e_arrays p prev)) (Some (e_dependencies p))
      && all_equal (e_array p) ps
  end.

(** Number of cycles of [ps] whose dependency sequence differs from the
    sequence of the cycle before ([prev] for the first of them), each
    taken as it was when it was passed. *)
Fixpoint sequence_changes (prev : DependencyList) (ps : list eager_props)
  : nat :=
  match ps with
  | [] => 0
  | p :: ps =>
      (if shallowCompare (Some prev) (Some (e_dependencies p))
       then 0 else 1) + sequence_changes (e_dependencies p) ps
  end.

(** The caller left the recorded array alone: at every cycle the array
    passed on the cycle before ([prev], then with [contents]) still
    contains what it contained when it was passed. *)
Fixpoint unmutated (prev : array_ref) (contents : DependencyList)
    (ps : list eager_props) : Prop :=
  match ps with
  | [] => True
  | p :: ps =>
      e_arrays p prev = contents
      /\ unmutated (e_array p) (e_dependencies p) ps
  end.
End Eager.

(** ** useDisposableStableRef *)

Section Deferred.
Context `{HookInputs}.

(** The closure returned by the effect: it captured the built value
    [current] and the cell [ref]. *)
Record destroy_closure := {
  captured_current : value;
  captured_ref : addr
}.

(** Committed hook state of a mounted call site: the memoised wrapper,
    the implementations the two effect events dispatch to, and the
    effect's dependency array and destroy closure. *)
Record fiber := {
  memoRef : addr;
  builderImpl : value;
  cleanupImpl : fid;
  effectDeps : list value;
  effectDestroy : destroy_closure
}.

(** What one render hands to the commit phase. *)
Record pending := {
  p_ref : addr;
  p_builder : value;
  p_cleanup : fid;
  p_deps : list value
}.

Record disposable_props := {
  builder : value;
  cleanup : fid;
  dependencies : DependencyList
}.

(** The hook body: memoise the wrapper, refresh the two effect events,
    register the effect under [[ref, ...dependencies]], return the
    wrapper. *)
Definition useDisposableStableRef (site : option fiber)
    (p : disposable_props) (h : host) : addr * pending * host :=
  let '(ref, h) :=
    useMemo (memoRef <$> site) (Wrapper unique_symbol false) h in
  (ref,
   {| p_ref := ref; p_builder := builder p; p_cleanup := cleanup p;
      p_deps := VObject ref :: dependencies p |},
   h).

(** The effect body, run with the builder the effect event holds. *)
Definition effect_create (ref : addr) (stableBuilder : value) (h : host)
  : completion (destroy_closure * host) :=
  '(current, h) ← call_builder stableBuilder h;
  h ← write_current ref current h;
  h ← write_isInitialized ref true h;
  Returned ({| captured_current := current; captured_ref := ref |}, h).

(** The closure the effect returned, run with the cleanup the effect
    event holds. *)
Definition effect_destroy (d : destroy_closure) (stableCleanup : fid)
    (h : host) : completion host :=
  let h := call_cleanup stableCleanup (captured_current d) h in
  write_current (captured_ref d) VNull h.

Definition render (site : option fiber) (p : disposable_props)
    (h : host) : addr * pending * host :=
  useDisposableStableRef site p (enter Render h).

(** Commit: the effect events take the implementations of the committed
    render; on mount the effect runs; on update it reruns, after the
    previous destroy closure, when the host finds the dependency arrays
    different. *)
Definition commit (site : option fiber) (p : pending) (h : host)
  : completion (fiber * host) :=
  let h := enter Commit h in
  match site with
  | None =>
      '(d, h) ← effect_create (p_ref p) (p_builder p) h;
      Returned ({| memoRef := p_ref p; builderImpl := p_builder p;
                   cleanupImpl := p_cleanup p; effectDeps := p_deps p;
                   effectDestroy := d |}, h)
  | Some f =>
      if areHookInputsEqual (p_deps p) (effectDeps f)
      then Returned ({| memoRef := p_ref p; builderImpl := p_builder p;
                        cleanupImpl := p_cleanup p;
                        effectDeps := p_deps p;
                        effectDestroy := effectDestroy f |}, h)
      else
        h ← effect_destroy (effectDestroy f) (p_cleanup p) h;
        '(d, h) ← effect_create (p_ref p) (p_builder p) h;
        Returned ({| memoRef := p_ref p; builderImpl := p_builder p;
                     cleanupImpl := p_cleanup p; effectDeps := p_deps p;
                     effectDestroy := d |}, h)
  end.

(** Teardown of the owning scope: the effect's destroy closure runs. *)
Definition unmount (f : fiber) (h : host) : completion host :=
  effect_destroy (effectDestroy f) (cleanupImpl f) (enter Unmount h).

(** A committed cycle: render, then commit. *)
Definition cycle (site : option fiber) (p : disposable_props) (h : host)
  : completion (addr * fiber * host) :=
  let '(ref, pd, h) := render site p h in
  '(f, h) ← commit site pd h;
  Returned (ref, f, h).

(** A render whose result the host throws away. *)
Definition speculate (site : option fiber) (p : disposable_props)
    (h : host) : addr * host :=
  let '(ref, _, h) := render site p h in (ref, h).

Inductive step :=
| Speculate (p : disposable_props)
| Cycle (p : disposable_props).

Definition do_step (site : option fiber) (s : step) (h : host)
  : completion (addr * option fiber * host) :=
  match s with
  | Speculate p =>
      let '(ref, h) := speculate site p h in Returned (ref, site, h)
  | Cycle p =>
      '(ref, f, h) ← cycle site p h; Returned (ref, Some f, h)
  end.

Fixpoint run (site : option fiber) (ss : list step) (h : host)
  : completion (option fiber * host) :=
  match ss with
  | [] => Returned (site, h)
  | s :: ss =>
      '(_, site, h) ← do_step site s h;
      run site ss h
  end.

Fixpoint run_refs (site : option fiber) (ss : list step) (h : host)
  : list addr :=
  match ss with
  | [] => []
  | s :: ss =>
      match do_step site s h with
      | Returned (ref, site, h) => ref :: run_refs site ss h
      | Threw _ => []
      end
  end.

(** A whole life of a call site: committed cycles, then teardown. *)
Definition lifetime (ps : list disposable_props) (h : host)
  : completion host :=
  '(site, h) ← run None (Cycle <$> ps) h;
  match site with
  | Some f => unmount f h
  | None => Returned h
  end.

(** The committed cycles among the steps. *)
Definition committed (ss : list step) : list disposable_props :=
  omap (fun s => match s with Cycle p => Some p | Speculate _ => None end)
       ss.

(** A mounted call site at rest: its wrapper holds [v], marked
    initialised; the destroy closure captured [v] and the wrapper; the
    effect was registered under [[ref, ...d]]. *)
Definition settled (f : fiber) (h : host) (v : value)
    (d : DependencyList) : Prop :=
  heap h !! memoRef f = Some (Wrapper (Held v) true)
  /\ effectDestroy f =
       {| captured_current := v; captured_ref := memoRef f |}
  /\ effectDeps f = VObject (memoRef f) :: d.

(** Number of cycles of [ps] whose effect dependency array the host
    finds different from that of the cycle before. *)
Fixpoint replacements (ref : addr) (prev : DependencyList)
    (ps : list disposable_props) : nat :=
  match ps with
  | [] => 0
  | p :: ps =>
      (if areHookInputsEqual (VObject ref :: dependencies p)
                             (VObject ref :: prev)
       then 0 else 1) + replacements ref (dependencies p) ps
  end.
End Deferred.

(** ** The earlier one-hook [useStableRef] (src/useStableRef.ts)

    One memoised wrapper for every call shape.  Without dependencies the
    argument is assigned during the render and the wrapper marked
    initialised.  With dependencies, with or without a cleanup, the builder
    runs in an effect; the destroy closure calls the cleanup, an empty
    function when none was given, and assigns nothing. *)

Section Legacy.
Context `{HookInputs}.

Record legacy_fiber := {
  l_memoRef : addr;
  l_computeState : value;
  l_cleanup : option fid;
  l_effectDeps : list value;
  l_captured : value
}.

Record legacy_pending := {
  lp_ref : addr;
  lp_computeState : value;
  lp_cleanup : option fid;
  lp_deps : list value
}.

Definition legacy_useStableRef (memo : option addr)
    (param1 : value) (param2 : option param2_t)
    (param3 : option DependencyList) (h : host)
  : completion (addr * option legacy_pending * host) :=
  let dependencies :=
    if isFunction2 param2 then param3 else as_dependencies param2 in
  let '(ref, h) := useMemo memo (PlainWrapper VUndefined false) h in
  match dependencies with
  | None =>
      h ← write_current ref param1 h;
      h ← write_isInitialized ref true h;
      Returned (ref, None, h)
  | Some dependencies =>
      Returned (ref,
                Some {| lp_ref := ref; lp_computeState := param1;
                        lp_cleanup := as_cleanup param2;
                        lp_deps := VObject ref :: dependencies |},
                h)
  end.

Definition legacy_effect_create (ref : addr) (computeState : value)
    (h : host) : completion (value * host) :=
  '(current, h) ← call_builder computeState h;
  h ← write_current ref current h;
  h ← write_isInitialized ref true h;
  Returned (current, h).

Definition legacy_effect_destroy (current : value) (cleanup : option fid)
    (h : host) : host :=
  match cleanup with
  | Some f => call_cleanup f current h
  | None => h
  end.

Definition legacy_render (memo : option addr) (param1 : value)
    (param2 : option param2_t) (param3 : option DependencyList) (h : host)
  : completion (addr * option legacy_pending * host) :=
  legacy_useStableRef memo param1 param2 param3 (enter Render h).

Definition legacy_commit (site : option legacy_fiber) (p : legacy_pending)
    (h : host) : completion (legacy_fiber * host) :=
  let h := enter Commit h in
  match site with
  | None =>
      '(current, h) ← legacy_effect_create (lp_ref p) (lp_computeState p) h;
      Returned ({| l_memoRef := lp_ref p;
                   l_computeState := lp_computeState p;
                   l_cleanup := lp_cleanup p; l_effectDeps := lp_deps p;
                   l_captured := current |}, h)
  | Some f =>
      if areHookInputsEqual (lp_deps p) (l_effectDeps f)
      then Returned ({| l_memoRef := lp_ref p;
                        l_computeState := lp_computeState p;
                        l_cleanup := lp_cleanup p; l_effectDeps := lp_deps p;
                        l_captured := l_captured f |}, h)
      else
        let h := legacy_effect_destroy (l_captured f) (lp_cleanup p) h in
        '(current, h) ← legacy_effect_create (lp_ref p) (lp_computeState p) h;
        Returned ({| l_memoRef := lp_ref p;
                     l_computeState := lp_computeState p;
                     l_cleanup := lp_cleanup p; l_effectDeps := lp_deps p;
                     l_captured := current |}, h)
  end.

Definition legacy_unmount (f : legacy_fiber) (h : host) : host :=
  legacy_effect_destroy (l_captured f) (l_cleanup f) (enter Unmount h).
End Legacy.
End Host.

(** ** The lifecycle of a disposable cell, as a monitor of the trace

    This definition follows the state machine of the specification, not the
    source: [Uninitialized -> Building -> Ready], and from [Ready] through a
    cleanup to [Released], from where a replacement is built or the cell
    stays disposed.  A builder result is installed by the assignment that
    follows it; a cleanup is accepted only for the value installed at that
    moment, and leaves nothing installed until the next builder result is
    assigned; clearing the slot with [null] is accepted only after a
    cleanup.  Anything else is a [Violation], which no later event
    repairs. *)
Inductive lifecycle :=
| Uninitialized
| Building (v : value)
| Ready (v : value)
| Released
| Violation.

Definition observe (s : lifecycle) (e : event) : lifecycle :=
  match s, e with
  | Uninitialized, EvBuilder _ _ v => Building v
  | Released, EvBuilder _ _ v => Building v
  | Building v, EvAssign _ _ v' => if decide (v = v') then Ready v else Violation
  | Ready v, EvCleanup _ _ v' => if decide (v = v') then Released else Violation
  | Released, EvAssign _ _ VNull => Released
  | _, _ => Violation
  end.

Definition monitor (s : lifecycle) (tr : list event) : lifecycle :=
  foldl observe s tr.

(** User code assigning to the cell, one value after the other. *)
Fixpoint write_all `{Callbacks} (ref : addr) (vs : list value) (h : host)
  : completion host :=
  match vs with
  | [] => Returned h
  | v :: vs => h ← write_current ref v h; write_all ref vs h
  end.

(** The slot behind [current], whatever the accessor says. *)
Definition raw_current (o : obj) : slot :=
  match o with
  | RefObject c => Held c
  | StableRef c _ => c
  | Wrapper c _ => c
  | PlainWrapper c _ => Held c
  end.

(** ** The owner of a deferred cell

    Between committed cycles the code that holds the cell may assign to
    [ref.current].  A turn is the assignments made since the cycle before,
    then a committed cycle with a callable builder. *)
Record turn := {
  t_assigned : list value;
  t_builder : fid;
  t_cleanup : fid;
  t_dependencies : DependencyList
}.

Definition turn_props (t : turn) : disposable_props :=
  {| builder := VFunction (t_builder t); cleanup := t_cleanup t;
     dependencies := t_dependencies t |}.

Section Owner.
Context `{Callbacks} `{HookInputs}.

Fixpoint owned_run (f : fiber) (ts : list turn) (h : host)
  : completion (fiber * host) :=
  match ts with
  | [] => Returned (f, h)
  | t :: ts =>
      h ← write_all (memoRef f) (t_assigned t) (enter Idle h);
      '(_, f, h) ← cycle (Some f) (turn_props t) h;
      owned_run f ts h
  end.

(** What the specification asks of the turns of a mounted cell whose
    builder returned [v] last and whose dependencies were [d] then.  This
    definition follows the words of the specification, not the source: a
    turn whose dependencies the host finds unchanged calls nothing; any
    other turn calls the cleanup once, with the value built last, then
    clears the cell, then calls the builder once and installs its result.
    The calls act on the world in that order.  The owner's assignments are
    recorded where they happen. *)
Record outcome := {
  o_events : list event;
  o_built : value;
  o_world : World
}.

Fixpoint expected_lifecycle (ref : addr) (v : value) (d : DependencyList)
    (ts : list turn) (w : World) : outcome :=
  match ts with
  | [] => {| o_events := []; o_built := v; o_world := w |}
  | t :: ts =>
      let owner := EvAssign Idle ref <$> t_assigned t in
      if areHookInputsEqual (VObject ref :: t_dependencies t)
                            (VObject ref :: d)
      then
        let o := expected_lifecycle ref v (t_dependencies t) ts w in
        {| o_events := owner ++ o_events o; o_built := o_built o;
           o_world := o_world o |}
      else
        let w1 := (js_apply (t_cleanup t) [v] w).2 in
        let v1 := (js_apply (t_builder t) [] w1).1 in
        let w2 := (js_apply (t_builder t) [] w1).2 in
        let o := expected_lifecycle ref v1 (t_dependencies t) ts w2 in
        {| o_events :=
             owner ++
             [EvCleanup Commit (t_cleanup t) v;
              EvAssign Commit ref VNull;
              EvBuilder Commit (VFunction (t_builder t)) v1;
              EvAssign Commit ref v1] ++ o_events o;
           o_built := o_built o; o_world := o_world o |}
  end.
End Owner.

(** ** A sample environment

    Every call returns a fresh object, numbered by the calls made so far;
    dependency sequences are compared element by element. *)
Definition sample_callbacks : Callbacks :=
  {| World := nat; js_apply := fun _ _ w => (VObject (100 + w), S w) |}.

Definition sample_shallowCompare : ShallowCompare :=
  fun a b => bool_decide (a = b).

Definition sample_areHookInputsEqual : HookInputs :=
  fun a b => bool_decide (a = b).

(** The host before anything ran. *)
Definition sample_host : host := @initial_host sample_callbacks 0.

(** [useStableRef(builder, cleanup, [1])], rerendered with [[2]]. *)
Definition sample_first : disposable_props :=
  {| builder := VFunction 1; cleanup := 2; dependencies := [VNumber 1] |}.
Definition sample_second : disposable_props :=
  {| builder := VFunction 1; cleanup := 2; dependencies := [VNumber 2] |}.

(** [useStableRef(builder, a)] with the array [a = [1]]; rerendered with
    another array [[2]], [a] being as it was; rerendered with [a] itself
    after the caller changed it in place to [[2]]; and
    [useStableRef(7, a)], whose first argument is no function. *)
Definition eager_first : eager_props :=
  {| e_builder := VFunction 1; e_array := 0;
     e_arrays := fun _ => [VNumber 1] |}.
Definition eager_changed : eager_props :=
  {| e_builder := VFunction 1; e_array := 1;
     e_arrays := fun a => if a is 0 then [VNumber 1] else [VNumber 2] |}.
Definition eager_mutated : eager_props :=
  {| e_builder := VFunction 1; e_array := 0;
     e_arrays := fun _ => [VNumber 2] |}.
Definition eager_inert : eager_props :=
  {| e_builder := VNumber 7; e_array := 0;
     e_arrays := fun _ => [VNumber 1] |}.

(** ** Whole runs of the earlier variants

    The arguments of one call of the hook, in any of its versions. *)
Record hook_args := {
  arg1 : value;
  arg2 : option param2_t;
  arg3 : option DependencyList
}.

(** [isFunction(param2) ? param3 : param2] and
    [isFunction(param2) ? param2 : undefined]. *)
Definition args_dependencies (a : hook_args) : option DependencyList :=
  if isFunction2 (arg2 a) then arg3 a else as_dependencies (arg2 a).
Definition args_cleanup (a : hook_args) : option fid :=
  if isFunction2 (arg2 a) then as_cleanup (arg2 a) else None.

Section LegacyRuns.
Context `{Callbacks} `{HookInputs}.

(** The call site of the one-hook variant: the memoised wrapper and, once
    an effect was committed, its state. *)
Record legacy_site := {
  ls_ref : addr;
  ls_effect : option legacy_fiber
}.

(** One committed cycle: the render, then the commit of the effect the
    render registered, if it registered one. *)
Definition legacy_cycle (site : option legacy_site) (a : hook_args)
    (h : host) : completion (addr * legacy_site * host) :=
  '(ref, pd, h) ← legacy_render (ls_ref <$> site) (arg1 a) (arg2 a) (arg3 a) h;
  match pd with
  | None =>
      Returned (ref, {| ls_ref := ref; ls_effect := site ≫= ls_effect |}, h)
  | Some pd =>
      '(f, h) ← legacy_commit (site ≫= ls_effect) pd h;
      Returned (ref, {| ls_ref := ref; ls_effect := Some f |}, h)
  end.

Fixpoint legacy_run (site : option legacy_site) (ps : list hook_args)
    (h : host) : completion (option legacy_site * host) :=
  match ps with
  | [] => Returned (site, h)
  | a :: ps =>
      '(_, site, h) ← legacy_cycle site a h;
      legacy_run (Some site) ps h
  end.

Fixpoint legacy_refs (site : option legacy_site) (ps : list hook_args)
    (h : host) : list addr :=
  match ps with
  | [] => []
  | a :: ps =>
      match legacy_cycle site a h with
      | Returned (ref, site, h) => ref :: legacy_refs (Some site) ps h
      | Threw _ => []
      end
  end.

Definition legacy_teardown (site : legacy_site) (h : host) : host :=
  match ls_effect site with
  | Some f => legacy_unmount f h
  | None => h
  end.


End LegacyRuns.

(** ** The [useSyncExternalStore] variant (the first file of
    unnamed/part_000)

    The hook keeps three private refs ([dependenciesRef], [getSnapshotRef],
    [cleanupRef]) and one memoised cell [{ current: unique_symbol }]; the
    host calls [getSnapshot] on the cell, once or more per render, and the
    function returned by [subscribe] at teardown.  The private refs never
    leave the hook and are kept in the call site's state; the cell is a
    [StableRef] whose [dependencies] field is never written. *)
Section Snapshot.
Context `{Callbacks} `{ShallowCompare}.

(** [getSnapshot(ref)] of a render with arguments [param1], [deps],
    [cleanup], while [dependenciesRef.current] is [previous].  Where
    nothing is built the last statement assigns the slot its own content,
    which changes nothing. *)
Definition getSnapshot (param1 : value) (deps : option DependencyList)
    (cleanup : option fid) (previous : option DependencyList)
    (ref : addr) (h : host) : completion host :=
  match deps with
  | None => write_current ref param1 h
  | Some d =>
      cur ← read_current ref h;
      let isFirstRender := is_unique_symbol cur in
      let shouldBuild :=
        isFunction param1
        && (isFirstRender || negb (shallowCompare previous (Some d))) in
      h ← (if negb isFirstRender && shouldBuild
           then match cleanup, cur with
                | Some c, Held v => Returned (call_cleanup c v h)
                | _, _ => Returned h
                end
           else Returned h);
      if shouldBuild
      then '(v, h) ← call_builder param1 h; write_current ref v h
      else Returned h
  end.

(** The host calling [getSnapshot] [n] times in a row. *)
Fixpoint snapshots (n : nat) (param1 : value)
    (deps : option DependencyList) (cleanup : option fid)
    (previous : option DependencyList) (ref : addr) (h : host)
  : completion host :=
  match n with
  | 0 => Returned h
  | S n =>
      h ← getSnapshot param1 deps cleanup previous ref h;
      snapshots n param1 deps cleanup previous ref h
  end.


Record snapshot_site := {
  sn_ref : addr;
  sn_dependenciesRef : option DependencyList;
  sn_cleanupRef : option fid
}.

(** The hook body, in a render during which the host calls [getSnapshot]
    [S calls] times: [useRef(deps)] keeps the dependencies of the first
    render until the last statement overwrites them. *)
Definition snapshot_render (site : option snapshot_site) (a : hook_args)
    (calls : nat) (h : host) : completion (addr * snapshot_site * host) :=
  let deps := args_dependencies a in
  let cleanup := args_cleanup a in
  let previous :=
    match site with Some s => sn_dependenciesRef s | None => deps end in
  let '(ref, h) :=
    useMemo (sn_ref <$> site) (StableRef unique_symbol None)
      (enter Render h) in
  h ← snapshots (S calls) (arg1 a) deps cleanup previous ref h;
  Returned (ref,
            {| sn_ref := ref; sn_dependenciesRef := deps;
               sn_cleanupRef := cleanup |},
            h).

Fixpoint snapshot_run (site : option snapshot_site)
    (ps : list (hook_args * nat)) (h : host)
  : completion (option snapshot_site * host) :=
  match ps with
  | [] => Returned (site, h)
  | (a, calls) :: ps =>
      '(_, site, h) ← snapshot_render site a calls h;
      snapshot_run (Some site) ps h
  end.


End Snapshot.

(** ** The memo-by-dependencies variant (the second file of
    unnamed/part_000)

    Here the cell and [getSnapshot] are made inside
    [useMemo(..., dependencies)]: the host makes them anew whenever it
    finds the dependencies changed, and on every render when there are
    none.  [props.current] carries the latest [value], [builder], [cleanup]
    and [previousDependencies]; [subscribe] returns an empty function. *)
Section Memoised.
Context `{Callbacks} `{ShallowCompare} `{HookInputs}.

(** [getSnapshot()] of the memo made under [dependencies], reading the
    latest [props.current]. *)
Definition memo_getSnapshot (value builder : value) (cleanup : option fid)
    (previousDependencies : option DependencyList)
    (dependencies : option DependencyList) (stableRef : addr) (h : host)
  : completion host :=
  match dependencies with
  | None => write_current stableRef value h
  | Some d =>
      cur ← read_current stableRef h;
      let isFirstRender := is_unique_symbol cur in
      let shouldBuild :=
        isFunction builder
        && (isFirstRender
            || negb (shallowCompare previousDependencies (Some d))) in
      h ← (if negb isFirstRender && shouldBuild
           then match cleanup, cur with
                | Some c, Held v => Returned (call_cleanup c v h)
                | _, _ => Returned h
                end
           else Returned h);
      if shouldBuild
      then '(v, h) ← call_builder builder h; write_current stableRef v h
      else Returned h
  end.

Fixpoint memo_snapshots (n : nat) (value builder : value)
    (cleanup : option fid) (previousDependencies : option DependencyList)
    (dependencies : option DependencyList) (stableRef : addr) (h : host)
  : completion host :=
  match n with
  | 0 => Returned h
  | S n =>
      h ← memo_getSnapshot value builder cleanup previousDependencies
            dependencies stableRef h;
      memo_snapshots n value builder cleanup previousDependencies
        dependencies stableRef h
  end.

Record memo_site := {
  mm_stableRef : addr;
  mm_memoDeps : option DependencyList;
  mm_previousDependencies : option DependencyList
}.

(** The host keeps a memo only when both dependency arrays are there and
    it finds them equal. *)
Definition memo_kept (site : option memo_site)
    (dependencies : option DependencyList) : option memo_site :=
  match site, dependencies with
  | Some s, Some d =>
      match mm_memoDeps s with
      | Some d' => if areHookInputsEqual d d' then Some s else None
      | None => None
      end
  | _, _ => None
  end.

(** The hook body, in a render during which the host calls [getSnapshot]
    [S calls] times. *)
Definition memo_render (site : option memo_site) (a : hook_args)
    (calls : nat) (h : host) : completion (addr * memo_site * host) :=
  let dependencies := args_dependencies a in
  let value := if dependencies is Some _ then VUndefined else arg1 a in
  let builder := if dependencies is Some _ then arg1 a else VUndefined in
  let cleanup := args_cleanup a in
  let previousDependencies := site ≫= mm_previousDependencies in
  let h := enter Render h in
  let '(stableRef, captured, h) :=
    match memo_kept site dependencies with
    | Some s => (mm_stableRef s, mm_memoDeps s, h)
    | None =>
        let '(r, h) := alloc (StableRef unique_symbol None) h in
        (r, dependencies, h)
    end in
  h ← memo_snapshots (S calls) value builder cleanup previousDependencies
        captured stableRef h;
  Returned (stableRef,
            {| mm_stableRef := stableRef; mm_memoDeps := captured;
               mm_previousDependencies := dependencies |},
            h).
End Memoised.

(** ** Sample calls for the variants

    [useStableRef(42)], [useStableRef(7)] and [useStableRef(42, cleanup)];
    [useStableRef(builder, cleanup, [1])], rerendered with [[2]];
    [useStableRef(7, [1])]; the three-hook call
    [useStableRef(7, cleanup, [2])]. *)
Definition args_value : hook_args :=
  {| arg1 := VNumber 42; arg2 := None; arg3 := None |}.
Definition args_other : hook_args :=
  {| arg1 := VNumber 7; arg2 := None; arg3 := None |}.
Definition args_value_cleanup : hook_args :=
  {| arg1 := VNumber 42; arg2 := Some (Param2Cleanup 2); arg3 := None |}.
Definition args_first : hook_args :=
  {| arg1 := VFunction 1; arg2 := Some (Param2Cleanup 2);
     arg3 := Some [VNumber 1] |}.
Definition args_second : hook_args :=
  {| arg1 := VFunction 1; arg2 := Some (Param2Cleanup 2);
     arg3 := Some [VNumber 2] |}.
Definition args_inert : hook_args :=
  {| arg1 := VNumber 7; arg2 := Some (Param2Deps [VNumber 1]);
     arg3 := None |}.
Definition sample_inert : disposable_props :=
  {| builder := VNumber 7; cleanup := 2; dependencies := [VNumber 2] |}.

(** The owner assigns [5] to the cell, then the call site rerenders with
    [[2]]. *)
Definition sample_turn : turn :=
  {| t_assigned := [VNumber 5]; t_builder := 1; t_cleanup := 2;
     t_dependencies := [VNumber 2] |}.


(** * Proofs *)

(** Split a conjunction into its conjuncts, without unfolding definitions,
    and close the immediate ones. *)
Ltac conjuncts :=
  repeat match goal with |- _ /\ _ => split end; try done.

Section HostFacts.
Context `{Callbacks}.


Lemma count_builds_app tr1 tr2 :
  count_builds (tr1 ++ tr2) = count_builds tr1 + count_builds tr2.
Proof. unfold count_builds. by rewrite list.filter_app, length_app. Qed.

Lemma count_cleanups_app tr1 tr2 :
  count_cleanups (tr1 ++ tr2) = count_cleanups tr1 + count_cleanups tr2.
Proof. unfold count_cleanups. by rewrite list.filter_app, length_app. Qed.

Lemma lookup_alloc_new (o : obj) (hp : list obj) :
  (hp ++ [o]) !! length hp = Some o.
Proof. by rewrite lookup_app_r, Nat.sub_diag. Qed.

Lemma insert_alloc_new (o o' : obj) (hp : list obj) :
  <[length hp := o']> (hp ++ [o]) = hp ++ [o'].
Proof.
  rewrite insert_app_r_alt by lia. by rewrite Nat.sub_diag.
Qed.

Lemma lookup_insert_hit (hp : list obj) ref o o' :
  hp !! ref = Some o -> <[ref := o']> hp !! ref = Some o'.
Proof. intros Hl. apply list_lookup_insert_eq. by eapply lookup_lt_Some. Qed.

Lemma write_current_at ref v h o :
  heap h !! ref = Some o ->
  write_current ref v h =
    o' ← set_current v o;
    Returned (emit (EvAssign (current_phase h) ref v)
                   (with_heap (<[ref := o']> (heap h)) h)).
Proof. intros Hl. unfold write_current. by rewrite Hl. Qed.

Lemma last_cons_default {A : Type} (l : list A) : forall x d,
  List.last (x :: l) d = List.last l x.
Proof.
  induction l as [|y l IH]; intros x d; [done|].
  change (List.last (x :: y :: l) d) with (List.last (y :: l) d).
  by rewrite !IH.
Qed.

Lemma read_current_at ref h o :
  heap h !! ref = Some o -> read_current ref h = get_current o.
Proof. intros Hl. unfold read_current. by rewrite Hl. Qed.
End HostFacts.

Section SimpleFacts.
Context `{Callbacks}.

Lemma simple_cycle_mount v h :
  simple_cycle None v h =
    Returned (length (heap h),
              emit (EvAssign Render (length (heap h)) v)
                   (with_heap (heap h ++ [RefObject v]) (enter Render h))).
Proof.
  unfold simple_cycle, useSimpleRef, useRef, alloc. cbn.
  unfold write_current. cbn. rewrite lookup_alloc_new. cbn.
  by rewrite insert_alloc_new.
Qed.

Lemma simple_cycle_update ref c v h :
  heap h !! ref = Some (RefObject c) ->
  simple_cycle (Some ref) v h =
    Returned (ref,
              emit (EvAssign Render ref v)
                   (with_heap (<[ref := RefObject v]> (heap h))
                              (enter Render h))).
Proof.
  intros Hl. unfold simple_cycle, useSimpleRef, useRef.
  by rewrite (write_current_at _ _ _ (RefObject c)).
Qed.

Lemma simple_run_mounted vs : forall ref c h,
  heap h !! ref = Some (RefObject c) ->
  exists h',
    simple_run (Some ref) vs h = Returned (Some ref, h')
    /\ heap h' !! ref = Some (RefObject (List.last vs c))
    /\ trace h' = trace h ++ (EvAssign Render ref <$> vs)
    /\ world h' = world h
    /\ simple_refs (Some ref) vs h = replicate (length vs) ref.
Proof.
  induction vs as [|v vs IH]; intros ref c h Hl.
  - exists h. cbn. by rewrite app_nil_r.
  - rewrite (last_cons_default vs v c). cbn [simple_run simple_refs].
    rewrite (simple_cycle_update _ _ _ _ Hl). cbn.
    edestruct (IH ref v) as (h' & Hrun & Hh & Htr & Hw & Hrefs);
      [ | exists h'; rewrite Hrun, Hrefs, Hh, Htr, Hw ].
    + cbn. by eapply lookup_insert_hit.
    + cbn. rewrite <- app_assoc. by repeat split.
Qed.
End SimpleFacts.

Section EagerFacts.
Context `{Callbacks} `{ShallowCompare}.

Lemma eager_cycle_mount p h :
  eager_cycle None p h =
    eager_cycle (Some (length (heap h))) p
      (with_heap (heap h ++ [StableRef unique_symbol None]) h).
Proof. reflexivity. Qed.

Lemma eager_cycle_skip ref c d p h :
  heap h !! ref = Some (StableRef c d) ->
  shouldBuild c d p = false ->
  eager_cycle (Some ref) p h =
    Returned (ref,
              with_heap (<[ref := StableRef c (Some (e_array p))]>
                           (heap h)) (enter Render h)).
Proof.
  intros Hl Hs. unfold shouldBuild, e_dependencies in Hs.
  unfold eager_cycle, useNonDisposableStableRef, useMemo.
  unfold read_current, read_dependencies. cbn. rewrite Hl. cbn.
  rewrite Hs. cbn. unfold write_dependencies. cbn. by rewrite Hl.
Qed.

Lemma eager_cycle_build ref c d p f h :
  heap h !! ref = Some (StableRef c d) ->
  e_builder p = VFunction f ->
  shouldBuild c d p = true ->
  eager_cycle (Some ref) p h =
    Returned (ref,
              {| heap := <[ref := StableRef (Held (js_apply f [] (world h)).1)
                                    (Some (e_array p))]> (heap h);
                 world := (js_apply f [] (world h)).2;
                 current_phase := Render;
                 trace := trace h ++
                   [EvBuilder Render (VFunction f) (js_apply f [] (world h)).1;
                    EvAssign Render ref (js_apply f [] (world h)).1] |}).
Proof.
  intros Hl Hf Hs. unfold shouldBuild, e_dependencies in Hs.
  unfold eager_cycle, useNonDisposableStableRef, useMemo.
  unfold read_current, read_dependencies. cbn. rewrite Hl. cbn.
  rewrite Hs. rewrite Hf. unfold call_builder. cbn.
  destruct (js_apply f [] (world h)) as [v w] eqn:Hap. cbn.
  unfold write_current. cbn. rewrite Hl. cbn.
  unfold write_dependencies. cbn.
  rewrite (lookup_insert_hit _ _ _ _ Hl). cbn.
  rewrite list_insert_insert_eq. unfold with_heap, emit. cbn.
  by rewrite <- app_assoc.
Qed.

Lemma shouldBuild_function c d p :
  shouldBuild c d p = true -> exists f, e_builder p = VFunction f.
Proof.
  unfold shouldBuild. intros Hs. apply andb_prop in Hs as [Hf _].
  destruct (e_builder p); try discriminate. eauto.
Qed.

(** From a mounted cell the hook keeps returning the same cell. *)
Lemma eager_run_total ps : forall ref c d h,
  heap h !! ref = Some (StableRef c d) ->
  exists h' c' d',
    eager_run (Some ref) ps h = Returned (Some ref, h')
    /\ heap h' !! ref = Some (StableRef c' d')
    /\ eager_refs (Some ref) ps h = replicate (length ps) ref.
Proof.
  induction ps as [|p ps IH]; intros ref c d h Hl.
  - exists h, c, d. by cbn.
  - cbn [eager_run eager_refs].
    destruct (shouldBuild c d p) eqn:Hs.
    + destruct (shouldBuild_function _ _ _ Hs) as [f Hf].
      rewrite (eager_cycle_build _ _ _ _ _ _ Hl Hf Hs). cbn.
      edestruct IH as (h' & c' & d' & Hrun & Hh & Hrefs);
        [ | exists h', c', d'; rewrite Hrun, Hrefs; by repeat split ].
      cbn. by eapply lookup_insert_hit.
    + rewrite (eager_cycle_skip _ _ _ _ _ Hl Hs). cbn.
      edestruct IH as (h' & c' & d' & Hrun & Hh & Hrefs);
        [ | exists h', c', d'; rewrite Hrun, Hrefs; by repeat split ].
      cbn. by eapply lookup_insert_hit.
Qed.

(** Callable builders, mounted cell: the builder runs on exactly the
    cycles at which the recorded array, as it is then, differs from the
    array passed. *)
Lemma eager_run_mounted ps : forall ref v d h,
  heap h !! ref = Some (StableRef (Held v) (Some d)) ->
  Forall (fun p => isFunction (e_builder p) = true) ps ->
  exists h' v' tr,
    eager_run (Some ref) ps h = Returned (Some ref, h')
    /\ heap h' !! ref =
         Some (StableRef (Held v') (Some (List.last (e_array <$> ps) d)))
    /\ trace h' = trace h ++ tr
    /\ count_builds tr = changes d ps
    /\ (changes d ps = 0 -> v' = v /\ world h' = world h).
Proof.
  induction ps as [|p ps IH]; intros ref v d h Hl Hall.
  - exists h, v, []. cbn. rewrite app_nil_r. conjuncts.
  - inversion Hall as [|? ? Hp Hall']; subst; clear Hall; rename Hall' into Hall.
    change (e_array <$> p :: ps) with (e_array p :: (e_array <$> ps)).
    rewrite last_cons_default. cbn [eager_run changes].
    destruct (shallowCompare (Some (e_arrays p d)) (Some (e_dependencies p)))
      eqn:Hcmp.
    + rewrite (eager_cycle_skip _ _ _ _ _ Hl)
        by (unfold shouldBuild; cbn; rewrite Hcmp; apply andb_false_r).
      cbn [mbind completion_bind].
      match goal with
      | |- context [eager_run (Some ref) ps ?h1] =>
          destruct (IH ref v (e_array p) h1)
            as (h' & v' & tr & Hrun & Hh & Ht & Hc & Hv); [ | exact Hall | ]
      end.
      { cbn. by eapply lookup_insert_hit. }
      exists h', v', tr. rewrite Hrun. conjuncts.
    + destruct (e_builder p) as [| | | | | |f] eqn:Hf; try discriminate.
      rewrite (eager_cycle_build _ _ _ _ f _ Hl Hf)
        by (unfold shouldBuild; rewrite Hf; cbn; by rewrite Hcmp).
      cbn [mbind completion_bind].
      match goal with
      | |- context [eager_run (Some ref) ps ?h1] =>
          destruct (IH ref (js_apply f [] (world h)).1 (e_array p) h1)
            as (h' & v' & tr & Hrun & Hh & Ht & Hc & Hv); [ | exact Hall | ]
      end.
      { cbn. by eapply lookup_insert_hit. }
      cbn [trace] in Ht.
      eexists h', v', (_ ++ tr). rewrite Hrun. conjuncts.
      * by rewrite Ht, <- app_assoc.
      * rewrite count_builds_app, Hc. done.
Qed.

(** Builders that are not functions: the cell keeps the sentinel and
    nothing is called. *)
Lemma eager_run_inert ps : forall ref d h,
  heap h !! ref = Some (StableRef unique_symbol d) ->
  Forall (fun p => isFunction (e_builder p) = false) ps ->
  exists h',
    eager_run (Some ref) ps h = Returned (Some ref, h')
    /\ heap h' !! ref =
         Some (StableRef unique_symbol
                 (List.last (Some <$> (e_array <$> ps)) d))
    /\ trace h' = trace h
    /\ world h' = world h.
Proof.
  induction ps as [|p ps IH]; intros ref d h Hl Hall.
  - exists h. by cbn.
  - inversion Hall as [|? ? Hp Hall']; subst; clear Hall; rename Hall' into Hall.
    change (Some <$> (e_array <$> p :: ps))
      with (Some (e_array p) :: (Some <$> (e_array <$> ps))).
    rewrite last_cons_default. cbn [eager_run].
    rewrite (eager_cycle_skip _ _ _ _ _ Hl)
      by (unfold shouldBuild; by rewrite Hp).
    cbn.
    edestruct (IH ref (Some (e_array p))) as (h' & Hrun & Hh & Ht & Hw);
      [ | exact Hall | exists h'; rewrite Hrun, Hh, Ht, Hw; by repeat split ].
    cbn. by eapply lookup_insert_hit.
Qed.

Lemma eager_cycle_first p f h :
  e_builder p = VFunction f ->
  eager_cycle None p h =
    Returned (length (heap h),
              {| heap := heap h ++
                   [StableRef (Held (js_apply f [] (world h)).1)
                      (Some (e_array p))];
                 world := (js_apply f [] (world h)).2;
                 current_phase := Render;
                 trace := trace h ++
                   [EvBuilder Render (VFunction f) (js_apply f [] (world h)).1;
                    EvAssign Render (length (heap h))
                      (js_apply f [] (world h)).1] |}).
Proof.
  intros Hf. rewrite eager_cycle_mount.
  rewrite (eager_cycle_build _ unique_symbol None p f);
    [ | cbn; apply lookup_alloc_new | done
      | unfold shouldBuild; by rewrite Hf ].
  cbn. by rewrite insert_alloc_new.
Qed.

Lemma eager_cycle_first_inert p h :
  isFunction (e_builder p) = false ->
  eager_cycle None p h =
    Returned (length (heap h),
              with_heap (heap h ++
                           [StableRef unique_symbol (Some (e_array p))])
                        (enter Render h)).
Proof.
  intros Hf. rewrite eager_cycle_mount.
  rewrite (eager_cycle_skip _ unique_symbol None p);
    [ | cbn; apply lookup_alloc_new | unfold shouldBuild; by rewrite Hf ].
  unfold with_heap, enter. cbn. by rewrite insert_alloc_new.
Qed.

Lemma all_equal_changes ps : forall d,
  all_equal d ps = true -> changes d ps = 0.
Proof.
  induction ps as [|p ps IH]; intros d Hall; [done|].
  cbn in *. apply andb_prop in Hall as [Hd Hall].
  rewrite Hd. by rewrite IH.
Qed.

(** While the caller leaves the recorded array alone, the comparisons
    the hook makes are those between consecutive dependency sequences. *)
Lemma unmutated_changes ps : forall a l,
  unmutated a l ps -> changes a ps = sequence_changes l ps.
Proof.
  induction ps as [|p ps IH]; intros a l Hu; [done|].
  cbn [unmutated changes sequence_changes] in *. destruct Hu as [-> Hu].
  by rewrite (IH _ _ Hu).
Qed.
End EagerFacts.

Section DeferredFacts.
Context `{Callbacks} `{HookInputs}.

Lemma render_unmounted p h :
  render None p h =
    (length (heap h),
     {| p_ref := length (heap h); p_builder := builder p;
        p_cleanup := cleanup p;
        p_deps := VObject (length (heap h)) :: dependencies p |},
     with_heap (heap h ++ [Wrapper unique_symbol false]) (enter Render h)).
Proof. reflexivity. Qed.

Lemma render_mounted f p h :
  render (Some f) p h =
    (memoRef f,
     {| p_ref := memoRef f; p_builder := builder p; p_cleanup := cleanup p;
        p_deps := VObject (memoRef f) :: dependencies p |},
     enter Render h).
Proof. reflexivity. Qed.

Lemma effect_create_at ref c i f h :
  heap h !! ref = Some (Wrapper c i) ->
  effect_create ref (VFunction f) h =
    Returned
      ({| captured_current := (js_apply f [] (world h)).1;
          captured_ref := ref |},
       {| heap := <[ref := Wrapper (Held (js_apply f [] (world h)).1) true]>
                    (heap h);
          world := (js_apply f [] (world h)).2;
          current_phase := current_phase h;
          trace := trace h ++
            [EvBuilder (current_phase h) (VFunction f)
               (js_apply f [] (world h)).1;
             EvAssign (current_phase h) ref (js_apply f [] (world h)).1] |}).
Proof.
  intros Hl. unfold effect_create, call_builder.
  destruct (js_apply f [] (world h)) as [v w] eqn:Hap. cbn.
  unfold write_current. cbn. rewrite Hl. cbn.
  unfold write_isInitialized. cbn.
  rewrite (lookup_insert_hit _ _ _ _ Hl). cbn.
  rewrite list_insert_insert_eq. unfold with_heap, emit. cbn.
  by rewrite <- app_assoc.
Qed.

Lemma effect_destroy_at ref c i v cl h :
  heap h !! ref = Some (Wrapper c i) ->
  effect_destroy {| captured_current := v; captured_ref := ref |} cl h =
    Returned
      {| heap := <[ref := Wrapper (Held VNull) i]> (heap h);
         world := (js_apply cl [v] (world h)).2;
         current_phase := current_phase h;
         trace := trace h ++
           [EvCleanup (current_phase h) cl v;
            EvAssign (current_phase h) ref VNull] |}.
Proof.
  intros Hl. unfold effect_destroy, call_cleanup. cbn.
  destruct (js_apply cl [v] (world h)) as [r w] eqn:Hap. cbn.
  unfold write_current. cbn. rewrite Hl. cbn.
  unfold with_heap, emit. cbn. by rewrite <- app_assoc.
Qed.

Lemma settled_enter f h v d ph :
  settled f h v d -> settled f (enter ph h) v d.
Proof. by intros (? & ? & ?). Qed.

(** The first committed cycle. *)
Lemma cycle_mount p b h :
  builder p = VFunction b ->
  cycle None p h =
    Returned
      (length (heap h),
       {| memoRef := length (heap h); builderImpl := VFunction b;
          cleanupImpl := cleanup p;
          effectDeps := VObject (length (heap h)) :: dependencies p;
          effectDestroy :=
            {| captured_current := (js_apply b [] (world h)).1;
               captured_ref := length (heap h) |} |},
       {| heap := heap h ++ [Wrapper (Held (js_apply b [] (world h)).1) true];
          world := (js_apply b [] (world h)).2;
          current_phase := Commit;
          trace := trace h ++
            [EvBuilder Commit (VFunction b) (js_apply b [] (world h)).1;
             EvAssign Commit (length (heap h))
               (js_apply b [] (world h)).1] |}).
Proof.
  intros Hb. unfold cycle. rewrite render_unmounted. unfold commit.
  cbn [p_ref p_builder p_cleanup p_deps]. rewrite Hb.
  rewrite (effect_create_at _ unique_symbol false)
    by (cbn; apply lookup_alloc_new).
  cbn. by rewrite insert_alloc_new.
Qed.

(** A committed cycle whose dependencies the host finds unchanged. *)
Lemma cycle_keep f p h :
  areHookInputsEqual (VObject (memoRef f) :: dependencies p) (effectDeps f)
    = true ->
  cycle (Some f) p h =
    Returned
      (memoRef f,
       {| memoRef := memoRef f; builderImpl := builder p;
          cleanupImpl := cleanup p;
          effectDeps := VObject (memoRef f) :: dependencies p;
          effectDestroy := effectDestroy f |},
       enter Commit h).
Proof.
  intros Heq. unfold cycle. rewrite render_mounted. unfold commit.
  cbn [p_ref p_builder p_cleanup p_deps]. by rewrite Heq.
Qed.

(** A committed cycle whose dependencies the host finds changed. *)
Lemma cycle_replace f p b v d h :
  settled f h v d ->
  builder p = VFunction b ->
  areHookInputsEqual (VObject (memoRef f) :: dependencies p) (effectDeps f)
    = false ->
  cycle (Some f) p h =
    Returned
      (memoRef f,
       {| memoRef := memoRef f; builderImpl := VFunction b;
          cleanupImpl := cleanup p;
          effectDeps := VObject (memoRef f) :: dependencies p;
          effectDestroy :=
            {| captured_current :=
                 (js_apply b [] (js_apply (cleanup p) [v] (world h)).2).1;
               captured_ref := memoRef f |} |},
       {| heap :=
            <[memoRef f :=
                Wrapper (Held (js_apply b []
                                 (js_apply (cleanup p) [v] (world h)).2).1)
                        true]> (heap h);
          world := (js_apply b [] (js_apply (cleanup p) [v] (world h)).2).2;
          current_phase := Commit;
          trace := trace h ++
            [EvCleanup Commit (cleanup p) v;
             EvAssign Commit (memoRef f) VNull;
             EvBuilder Commit (VFunction b)
               (js_apply b [] (js_apply (cleanup p) [v] (world h)).2).1;
             EvAssign Commit (memoRef f)
               (js_apply b [] (js_apply (cleanup p) [v] (world h)).2).1] |}).
Proof.
  intros (Hl & Hd & Hdeps) Hb Hne. unfold cycle. rewrite render_mounted.
  unfold commit. cbn [p_ref p_builder p_cleanup p_deps].
  rewrite Hne, Hd, Hb.
  rewrite (effect_destroy_at _ (Held v) true) by exact Hl.
  cbn [mbind completion_bind].
  rewrite (effect_create_at _ (Held VNull) true)
    by (cbn; by eapply lookup_insert_hit).
  cbn. rewrite list_insert_insert_eq. by rewrite <- app_assoc.
Qed.

Lemma monitor_replace s cl b ref ph (v v' : value) tr :
  s = Ready v ->
  monitor s
    ([EvCleanup ph cl v; EvAssign ph ref VNull;
      EvBuilder ph b v'; EvAssign ph ref v'] ++ tr)
  = monitor (Ready v') tr.
Proof.
  intros ->. unfold monitor. rewrite foldl_app. cbn [foldl observe].
  rewrite decide_True by done. cbn [foldl observe].
  by rewrite decide_True by done.
Qed.

(** Any further life of a settled call site: it returns the same cell at
    every step, its trace follows the lifecycle, and builder and cleanup
    run once per committed cycle with changed dependencies, in the commit
    phase. *)
Lemma run_settled ss : forall f h v d,
  settled f h v d ->
  Forall (fun p => isFunction (builder p) = true) (committed ss) ->
  exists f' h' v' tr,
    run (Some f) ss h = Returned (Some f', h')
    /\ memoRef f' = memoRef f
    /\ settled f' h' v' (List.last (dependencies <$> committed ss) d)
    /\ cleanupImpl f' = List.last (cleanup <$> committed ss) (cleanupImpl f)
    /\ trace h' = trace h ++ tr
    /\ monitor (Ready v) tr = Ready v'
    /\ count_builds tr = replacements (memoRef f) d (committed ss)
    /\ count_cleanups tr = replacements (memoRef f) d (committed ss)
    /\ Forall (fun e => event_phase e = Commit) tr
    /\ run_refs (Some f) ss h = replicate (length ss) (memoRef f).
Proof.
  induction ss as [|[p|p] ss IH]; intros f h v d Hs Hall.
  - exists f, h, v, []. cbn. rewrite app_nil_r.
    conjuncts.
  - change (committed (Speculate p :: ss)) with (committed ss) in *.
    cbn [run run_refs do_step]. unfold speculate.
    rewrite render_mounted. cbn [mbind completion_bind].
    destruct (IH f (enter Render h) v d) as
      (f' & h' & v' & tr & Hrun & Hm & Hs' & Hc & Ht & Hmon & Hb & Hcl & Hph
       & Hrefs); [by apply settled_enter | done |].
    exists f', h', v', tr. rewrite Hrun, Hrefs. conjuncts.
  - change (committed (Cycle p :: ss)) with (p :: committed ss) in *.
    inversion Hall as [|? ? Hp Hall']; subst; clear Hall.
    change (dependencies <$> p :: committed ss)
      with (dependencies p :: (dependencies <$> committed ss)).
    change (cleanup <$> p :: committed ss)
      with (cleanup p :: (cleanup <$> committed ss)).
    rewrite !last_cons_default.
    cbn [run run_refs do_step replacements].
    pose proof Hs as (Hl & Hd & Hdeps).
    destruct (areHookInputsEqual (VObject (memoRef f) :: dependencies p)
                (VObject (memoRef f) :: d)) eqn:Heq.
    + rewrite cycle_keep by (by rewrite Hdeps).
      cbn [mbind completion_bind].
      match goal with
      | |- context [run (Some ?f1) ss ?h1] =>
          edestruct (IH f1 h1 v (dependencies p)) as
            (f' & h' & v' & tr & Hrun & Hm & Hs' & Hc & Ht & Hmon & Hb
             & Hcl & Hph & Hrefs); [ | exact Hall' | ]
      end.
      { split; [exact Hl | split; [exact Hd | reflexivity]]. }
      cbn [memoRef cleanupImpl] in *.
      exists f', h', v', tr. rewrite Hrun, Hrefs. conjuncts.
    + destruct (builder p) as [| | | | | |b] eqn:Hbd; try discriminate.
      rewrite (cycle_replace f p b v d h Hs Hbd) by (by rewrite Hdeps).
      cbn [mbind completion_bind].
      match goal with
      | |- context [run (Some ?f1) ss ?h1] =>
          edestruct (IH f1 h1
                       (js_apply b [] (js_apply (cleanup p) [v] (world h)).2).1
                       (dependencies p)) as
            (f' & h' & v' & tr & Hrun & Hm & Hs' & Hc & Ht & Hmon & Hb
             & Hcl & Hph & Hrefs); [ | exact Hall' | ]
      end.
      { split; [cbn; by eapply lookup_insert_hit | by split]. }
      cbn [memoRef cleanupImpl trace] in *.
      eexists f', h', v', (_ ++ tr). rewrite Hrun, Hrefs.
      split; [done|]. split; [done|]. split; [done|]. split; [done|].
      split; [by rewrite Ht, <- app_assoc|].
      split; [by rewrite monitor_replace|].
      rewrite count_builds_app, count_cleanups_app, Hb, Hcl.
      split; [done|]. split; [done|].
      split; [|done]. apply Forall_app. split; [|done].
      by repeat constructor.
Qed.

Lemma committed_cycles ps : committed (Cycle <$> ps) = ps.
Proof. induction ps as [|p ps IH]; [done|]. cbn. by f_equal. Qed.

(** Renders that are thrown away call nothing; before the mount each of
    them makes a wrapper of its own, after it they return the memoised
    one. *)
Lemma run_speculate ps : forall site h,
  exists h',
    run site (Speculate <$> ps) h = Returned (site, h')
    /\ trace h' = trace h
    /\ world h' = world h
    /\ heap h' = heap h ++
         match site with
         | None => replicate (length ps) (Wrapper unique_symbol false)
         | Some _ => []
         end
    /\ run_refs site (Speculate <$> ps) h =
         match site with
         | None => seq (length (heap h)) (length ps)
         | Some f => replicate (length ps) (memoRef f)
         end.
Proof.
  induction ps as [|p ps IH]; intros site h.
  - exists h. cbn. destruct site; rewrite ?app_nil_r; conjuncts.
  - cbn [fmap list_fmap run run_refs do_step]. unfold speculate.
    destruct site as [f|].
    + rewrite render_mounted. cbn [mbind completion_bind].
      destruct (IH (Some f) (enter Render h))
        as (h' & Hrun & Ht & Hw & Hh & Hrefs).
      exists h'. rewrite Hrun, Hrefs. conjuncts.
    + rewrite render_unmounted. cbn [mbind completion_bind].
      match goal with
      | |- context [run None _ ?h1] =>
          destruct (IH None h1) as (h' & Hrun & Ht & Hw & Hh & Hrefs)
      end.
      exists h'. rewrite Hrun, Hrefs. cbn [heap with_heap enter] in *.
      rewrite length_app, Nat.add_1_r in *. conjuncts.
      rewrite Hh, <- app_assoc. done.
Qed.

Lemma write_all_wrapper vs : forall ref c i h,
  heap h !! ref = Some (Wrapper c i) ->
  exists h' c',
    write_all ref vs h = Returned h'
    /\ heap h' !! ref = Some (Wrapper c' i)
    /\ world h' = world h.
Proof.
  induction vs as [|v vs IH]; intros ref c i h Hl.
  - exists h, c. by cbn.
  - cbn [write_all]. rewrite (write_current_at _ _ _ _ Hl).
    cbn [set_current mbind completion_bind].
    match goal with
    | |- context [write_all ref vs ?h1] =>
        destruct (IH ref (Held v) i h1) as (h' & c' & Hw & Hh & Hwd)
    end.
    { cbn. by eapply lookup_insert_hit. }
    exists h', c'. by rewrite Hw.
Qed.

(** A whole run from the mount on. *)
Lemma run_mount p ss h0 :
  Forall (fun q => isFunction (builder q) = true)
         (committed (Cycle p :: ss)) ->
  exists f h v tr,
    run None (Cycle p :: ss) h0 = Returned (Some f, h)
    /\ memoRef f = length (heap h0)
    /\ settled f h v
         (List.last (dependencies <$> committed ss) (dependencies p))
    /\ cleanupImpl f = List.last (cleanup <$> committed ss) (cleanup p)
    /\ trace h = trace h0 ++ tr
    /\ monitor Uninitialized tr = Ready v
    /\ count_builds tr
       = 1 + replacements (length (heap h0)) (dependencies p) (committed ss)
    /\ count_cleanups tr
       = replacements (length (heap h0)) (dependencies p) (committed ss)
    /\ Forall (fun e => event_phase e = Commit) tr
    /\ run_refs None (Cycle p :: ss) h0
       = replicate (S (length ss)) (length (heap h0)).
Proof.
  change (committed (Cycle p :: ss)) with (p :: committed ss).
  intros Hall. inversion Hall as [|? ? Hp Hss]; subst.
  destruct (builder p) as [| | | | | |b] eqn:Hb; try discriminate.
  cbn [run run_refs do_step]. rewrite (cycle_mount p b h0 Hb).
  cbn [mbind completion_bind].
  match goal with
  | |- context [run (Some ?f1) ss ?hm] =>
      destruct (run_settled ss f1 hm
                  (js_apply b [] (world h0)).1 (dependencies p))
        as (f & h & v & tr & Hrun & Hm & Hs & Hc & Ht & Hmon & Hcb & Hcc
            & Hph & Hrefs)
  end.
  { split; [cbn; apply lookup_alloc_new | by split]. }
  { exact Hss. }
  cbn [memoRef cleanupImpl trace] in *.
  eexists f, h, v, (_ ++ tr). rewrite Hrun, Hrefs. conjuncts.
  - by rewrite Ht, <- app_assoc.
  - unfold monitor in *. rewrite foldl_app. cbn [foldl observe].
    rewrite decide_True by done. exact Hmon.
  - rewrite count_builds_app, Hcb. done.
  - rewrite count_cleanups_app, Hcc. done.
  - apply Forall_app. split; [by repeat constructor | done].
Qed.

(** After any lifetime with callable builders a read of the cell returns
    [null]. *)
Lemma read_after_unmount_is_null p ps h0 :
  Forall (fun q => isFunction (builder q) = true) (p :: ps) ->
  exists h',
    lifetime (p :: ps) h0 = Returned h'
    /\ read_current (length (heap h0)) h' = Returned (Held VNull).
Proof.
  intros Hall.
  destruct (run_mount p (Cycle <$> ps) h0)
    as (f & h & v & tr & Hrun & Hm & (Hl & Hd & _) & _).
  { cbn. by rewrite committed_cycles. }
  unfold lifetime. change (Cycle <$> p :: ps) with (Cycle p :: (Cycle <$> ps)).
  rewrite Hrun. cbn [mbind completion_bind]. unfold unmount. rewrite Hd.
  rewrite (effect_destroy_at _ (Held v) true) by exact Hl.
  eexists. split; [reflexivity|]. unfold read_current. cbn [heap].
  rewrite <- Hm. by rewrite (lookup_insert_hit _ _ _ _ Hl).
Qed.

(** The owner's assignments change the wrapper's slot and nothing else,
    and are recorded in the order they are made. *)
Lemma write_all_wrapper_trace vs : forall ref c i h,
  heap h !! ref = Some (Wrapper c i) ->
  exists h' c',
    write_all ref vs h = Returned h'
    /\ heap h' !! ref = Some (Wrapper c' i)
    /\ c' = List.last (Held <$> vs) c
    /\ world h' = world h
    /\ current_phase h' = current_phase h
    /\ trace h' = trace h ++ (EvAssign (current_phase h) ref <$> vs).
Proof.
  induction vs as [|v vs IH]; intros ref c i h Hl.
  - exists h, c. cbn. rewrite app_nil_r. conjuncts.
  - cbn [write_all]. rewrite (write_current_at _ _ _ _ Hl).
    cbn [set_current mbind completion_bind].
    change (Held <$> v :: vs) with (Held v :: (Held <$> vs)).
    rewrite last_cons_default.
    match goal with
    | |- context [write_all ref vs ?h1] =>
        destruct (IH ref (Held v) i h1)
          as (h' & c' & Hw & Hh & Hc & Hwd & Hph & Ht)
    end.
    { cbn. by eapply lookup_insert_hit. }
    exists h', c'. rewrite Hw. conjuncts.
    rewrite Ht. cbn. by rewrite <- app_assoc.
Qed.

(** A committed cycle whose dependencies the host finds changed, whatever
    the cell holds by then: the cleanup gets the value the destroy closure
    captured. *)
Lemma cycle_replace_captured f p b c v h :
  heap h !! memoRef f = Some (Wrapper c true) ->
  effectDestroy f = {| captured_current := v; captured_ref := memoRef f |} ->
  builder p = VFunction b ->
  areHookInputsEqual (VObject (memoRef f) :: dependencies p) (effectDeps f)
    = false ->
  cycle (Some f) p h =
    Returned
      (memoRef f,
       {| memoRef := memoRef f; builderImpl := VFunction b;
          cleanupImpl := cleanup p;
          effectDeps := VObject (memoRef f) :: dependencies p;
          effectDestroy :=
            {| captured_current :=
                 (js_apply b [] (js_apply (cleanup p) [v] (world h)).2).1;
               captured_ref := memoRef f |} |},
       {| heap :=
            <[memoRef f :=
                Wrapper (Held (js_apply b []
                                 (js_apply (cleanup p) [v] (world h)).2).1)
                        true]> (heap h);
          world := (js_apply b [] (js_apply (cleanup p) [v] (world h)).2).2;
          current_phase := Commit;
          trace := trace h ++
            [EvCleanup Commit (cleanup p) v;
             EvAssign Commit (memoRef f) VNull;
             EvBuilder Commit (VFunction b)
               (js_apply b [] (js_apply (cleanup p) [v] (world h)).2).1;
             EvAssign Commit (memoRef f)
               (js_apply b [] (js_apply (cleanup p) [v] (world h)).2).1] |}).
Proof.
  intros Hl Hd Hb Hne. unfold cycle. rewrite render_mounted.
  unfold commit. cbn [p_ref p_builder p_cleanup p_deps].
  rewrite Hne, Hd, Hb.
  rewrite (effect_destroy_at _ c true) by exact Hl.
  cbn [mbind completion_bind].
  rewrite (effect_create_at _ (Held VNull) true)
    by (cbn; by eapply lookup_insert_hit).
  cbn. rewrite list_insert_insert_eq. by rewrite <- app_assoc.
Qed.

Lemma count_assignments ph ref vs :
  count_builds (EvAssign ph ref <$> vs) = 0
  /\ count_cleanups (EvAssign ph ref <$> vs) = 0.
Proof.
  induction vs as [|v vs [IHb IHc]]; [done|].
  split; [exact IHb | exact IHc].
Qed.

(** The expected lifecycle has one builder call and one cleanup call per
    turn whose dependencies the host finds changed. *)
Lemma expected_lifecycle_counts ts : forall ref v d w,
  count_builds (o_events (expected_lifecycle ref v d ts w))
    = replacements ref d (turn_props <$> ts)
  /\ count_cleanups (o_events (expected_lifecycle ref v d ts w))
     = replacements ref d (turn_props <$> ts).
Proof.
  induction ts as [|t ts IH]; intros ref v d w; [done|].
  cbn [expected_lifecycle fmap list_fmap replacements turn_props
       dependencies].
  destruct (areHookInputsEqual (VObject ref :: t_dependencies t)
              (VObject ref :: d)).
  - cbn [o_events].
    rewrite count_builds_app, count_cleanups_app.
    rewrite (proj1 (count_assignments _ _ _)),
            (proj2 (count_assignments _ _ _)).
    apply IH.
  - cbn [o_events].
    rewrite !count_builds_app, !count_cleanups_app.
    rewrite (proj1 (count_assignments _ _ _)),
            (proj2 (count_assignments _ _ _)).
    destruct (IH ref
                (js_apply (t_builder t) []
                   (js_apply (t_cleanup t) [v] w).2).1
                (t_dependencies t)
                (js_apply (t_builder t) []
                   (js_apply (t_cleanup t) [v] w).2).2) as [-> ->].
    done.
Qed.

(** The turns of a mounted call site do what the expected lifecycle
    says, event by event, and leave the world it says. *)
Lemma owned_run_expected ts : forall f h c v d,
  heap h !! memoRef f = Some (Wrapper c true) ->
  effectDestroy f = {| captured_current := v; captured_ref := memoRef f |} ->
  effectDeps f = VObject (memoRef f) :: d ->
  exists f' h' c',
    owned_run f ts h = Returned (f', h')
    /\ memoRef f' = memoRef f
    /\ heap h' !! memoRef f = Some (Wrapper c' true)
    /\ effectDestroy f' =
         {| captured_current :=
              o_built (expected_lifecycle (memoRef f) v d ts (world h));
            captured_ref := memoRef f |}
    /\ cleanupImpl f' = List.last (t_cleanup <$> ts) (cleanupImpl f)
    /\ trace h' = trace h
         ++ o_events (expected_lifecycle (memoRef f) v d ts (world h))
    /\ world h' = o_world (expected_lifecycle (memoRef f) v d ts (world h))
    /\ (Forall (fun t => t_assigned t = []) ts -> c = Held v ->
        c' = Held (o_built (expected_lifecycle (memoRef f) v d ts
                              (world h)))).
Proof.
  induction ts as [|t ts IH]; intros f h c v d Hl Hd Hdeps.
  - exists f, h, c. cbn. rewrite app_nil_r. conjuncts.
  - cbn [owned_run expected_lifecycle].
    change (t_cleanup <$> t :: ts) with (t_cleanup t :: (t_cleanup <$> ts)).
    rewrite last_cons_default.
    destruct (write_all_wrapper_trace (t_assigned t) (memoRef f) c true
                (enter Idle h) Hl)
      as (h1 & c1 & Hw & Hl1 & Hc1 & Hw1 & Hph1 & Ht1).
    rewrite Hw. cbn [mbind completion_bind].
    cbn [world trace current_phase enter] in Hw1, Ht1.
    destruct (areHookInputsEqual (VObject (memoRef f) :: t_dependencies t)
                (VObject (memoRef f) :: d)) eqn:Hcmp.
    + rewrite (cycle_keep f (turn_props t) h1)
        by (rewrite Hdeps; exact Hcmp).
      cbn [mbind completion_bind].
      match goal with
      | |- context [owned_run ?f1 ts ?h2] =>
          destruct (IH f1 h2 c1 v (t_dependencies t))
            as (f' & h' & c' & Hrun & Hm & Hh & Hd' & Hcl & Ht & Hwd & Hc');
            [exact Hl1 | exact Hd | reflexivity | ]
      end.
      cbn [memoRef cleanupImpl world trace enter turn_props cleanup] in *.
      exists f', h', c'. rewrite Hrun. rewrite Hw1 in *.
      cbn [o_events o_built o_world]. conjuncts.
      * by rewrite Ht, Ht1, <- app_assoc.
      * intros Hall Hc. inversion Hall as [|? ? Ha Hall']; subst.
        apply Hc'; [exact Hall'|]. by rewrite Ha.
    + rewrite (cycle_replace_captured f (turn_props t) (t_builder t) c1 v h1
                 Hl1 Hd eq_refl)
        by (rewrite Hdeps; exact Hcmp).
      cbn [mbind completion_bind].
      match goal with
      | |- context [owned_run ?f1 ts ?h2] =>
          destruct (IH f1 h2
                      (Held (js_apply (t_builder t) []
                               (js_apply (t_cleanup t) [v] (world h1)).2).1)
                      (js_apply (t_builder t) []
                         (js_apply (t_cleanup t) [v] (world h1)).2).1
                      (t_dependencies t))
            as (f' & h' & c' & Hrun & Hm & Hh & Hd' & Hcl & Ht & Hwd & Hc');
            [ cbn; by eapply lookup_insert_hit | reflexivity | reflexivity | ]
      end.
      cbn [memoRef cleanupImpl world trace turn_props cleanup] in *.
      exists f', h', c'. rewrite Hrun. rewrite Hw1 in *.
      cbn [o_events o_built o_world]. conjuncts.
      * rewrite Ht, Ht1. by rewrite <- !app_assoc.
      * intros Hall _. inversion Hall as [|? ? Ha Hall']; subst.
        by apply Hc'.
Qed.
End DeferredFacts.

(** ** The earlier one-hook variant

    What src/useStableRef.ts does where the three-hook version differs or
    agrees: the passthrough shape also marks the wrapper initialised; every
    shape with dependencies, also the one without a cleanup, defers the
    builder to the commit; a replacement calls the cleanup with the value
    built before, then the builder; teardown calls the cleanup once and
    leaves the value readable. *)
Section LegacyFacts.
Context `{Callbacks} `{HookInputs}.

Lemma legacy_passthrough_mount param1 param2 param3 h :
  isNil (if isFunction2 param2 then param3 else as_dependencies param2)
    = true ->
  legacy_render None param1 param2 param3 h =
    Returned (length (heap h), None,
              emit (EvAssign Render (length (heap h)) param1)
                   (with_heap (heap h ++ [PlainWrapper param1 true])
                              (enter Render h))).
Proof.
  intros Hnil. unfold legacy_render, legacy_useStableRef.
  destruct (if isFunction2 param2 then param3 else as_dependencies param2);
    [discriminate|].
  unfold useMemo, alloc. cbn [fmap option_fmap option_map].
  unfold write_current. cbn. rewrite lookup_alloc_new. cbn.
  unfold write_isInitialized. cbn. rewrite insert_alloc_new.
  rewrite lookup_alloc_new. cbn. by rewrite insert_alloc_new.
Qed.

Lemma legacy_render_defers param1 param2 param3 d h :
  (if isFunction2 param2 then param3 else as_dependencies param2) = Some d ->
  exists h',
    legacy_render None param1 param2 param3 h =
      Returned (length (heap h),
                Some {| lp_ref := length (heap h); lp_computeState := param1;
                        lp_cleanup := as_cleanup param2;
                        lp_deps := VObject (length (heap h)) :: d |},
                h')
    /\ trace h' = trace h
    /\ world h' = world h
    /\ read_current (length (heap h)) h' = Threw UninitializedAccess.
Proof.
  intros Hd. unfold legacy_render, legacy_useStableRef. rewrite Hd.
  eexists. split; [reflexivity|]. conjuncts.
  unfold read_current. cbn. by rewrite lookup_alloc_new.
Qed.

Lemma legacy_effect_create_at ref c i f h :
  heap h !! ref = Some (PlainWrapper c i) ->
  legacy_effect_create ref (VFunction f) h =
    Returned
      ((js_apply f [] (world h)).1,
       {| heap := <[ref := PlainWrapper (js_apply f [] (world h)).1 true]>
                    (heap h);
          world := (js_apply f [] (world h)).2;
          current_phase := current_phase h;
          trace := trace h ++
            [EvBuilder (current_phase h) (VFunction f)
               (js_apply f [] (world h)).1;
             EvAssign (current_phase h) ref (js_apply f [] (world h)).1] |}).
Proof.
  intros Hl. unfold legacy_effect_create, call_builder.
  destruct (js_apply f [] (world h)) as [v w] eqn:Hap. cbn.
  unfold write_current. cbn. rewrite Hl. cbn.
  unfold write_isInitialized. cbn.
  rewrite (lookup_insert_hit _ _ _ _ Hl). cbn.
  rewrite list_insert_insert_eq. unfold with_heap, emit. cbn.
  by rewrite <- app_assoc.
Qed.

(** The two-argument shape [useStableRef(builder, deps)]: the builder is
    first called by the commit. *)
Lemma legacy_builder_runs_at_commit b d h :
  exists ref pd h1 f h2,
    legacy_render None (VFunction b) (Some (Param2Deps d)) None h
      = Returned (ref, Some pd, h1)
    /\ trace h1 = trace h
    /\ legacy_commit None pd h1 = Returned (f, h2)
    /\ trace h2 = trace h ++
         [EvBuilder Commit (VFunction b) (js_apply b [] (world h)).1;
          EvAssign Commit ref (js_apply b [] (world h)).1]
    /\ read_current ref h2 = Returned (Held (js_apply b [] (world h)).1).
Proof.
  destruct (legacy_render_defers (VFunction b) (Some (Param2Deps d)) None d h)
    as (h1 & Hr & Ht & Hw & _); [done|].
  eexists _, _, h1, _, _. split; [exact Hr|]. split; [exact Ht|].
  unfold legacy_commit. cbn [lp_ref lp_computeState lp_cleanup lp_deps].
  unfold legacy_render, legacy_useStableRef in Hr. cbn in Hr.
  injection Hr as <-.
  rewrite (legacy_effect_create_at _ VUndefined false)
    by (cbn; apply lookup_alloc_new).
  cbn [mbind completion_bind]. split; [reflexivity|].
  split; [reflexivity|].
  unfold read_current. cbn. rewrite insert_alloc_new.
  by rewrite lookup_alloc_new.
Qed.

(** A commit with changed dependencies: cleanup of the value built before
    (whatever the cell holds by then), then the builder, then the
    assignment. *)
Lemma legacy_commit_replaces f p cl b x v h :
  heap h !! l_memoRef f = Some (PlainWrapper x true) ->
  l_captured f = v ->
  lp_ref p = l_memoRef f ->
  lp_cleanup p = Some cl ->
  lp_computeState p = VFunction b ->
  areHookInputsEqual (lp_deps p) (l_effectDeps f) = false ->
  exists f' h',
    legacy_commit (Some f) p h = Returned (f', h')
    /\ trace h' = trace h ++
         [EvCleanup Commit cl v;
          EvBuilder Commit (VFunction b) (l_captured f');
          EvAssign Commit (l_memoRef f) (l_captured f')]
    /\ read_current (l_memoRef f) h' = Returned (Held (l_captured f')).
Proof.
  intros Hl Hc Hr Hcl Hb Hne. unfold legacy_commit.
  rewrite Hne, Hr, Hcl, Hb, Hc. unfold legacy_effect_destroy, call_cleanup.
  destruct (js_apply cl [v] (world (enter Commit h))) as [r w] eqn:Hap.
  rewrite (legacy_effect_create_at _ x true) by exact Hl.
  cbn [mbind completion_bind]. eexists _, _. split; [reflexivity|].
  cbn. split; [by rewrite <- app_assoc|].
  unfold read_current. cbn. by rewrite (lookup_insert_hit _ _ _ _ Hl).
Qed.

(** Teardown: one cleanup call, with the value built last; the wrapper
    keeps what it holds, and a later read returns it. *)
Lemma legacy_unmount_keeps_value f cl x v h :
  heap h !! l_memoRef f = Some (PlainWrapper x true) ->
  l_captured f = v ->
  l_cleanup f = Some cl ->
  trace (legacy_unmount f h) = trace h ++ [EvCleanup Unmount cl v]
  /\ read_current (l_memoRef f) (legacy_unmount f h) = Returned (Held x).
Proof.
  intros Hl Hc Hcl. unfold legacy_unmount, legacy_effect_destroy.
  rewrite Hcl, Hc. unfold call_cleanup.
  destruct (js_apply cl [v] (world (enter Unmount h))) as [r w] eqn:Hap.
  split; [done|]. unfold read_current. cbn. by rewrite Hl.
Qed.
End LegacyFacts.

(** * Properties of the specification *)

Section Claims.
Context `{Callbacks} `{ShallowCompare} `{HookInputs}.

(** C1: in deferred rebuild-with-cleanup mode, over any sequence of
    committed cycles with callable builders, with any assignments the
    owner of the cell makes in between, the hook does what the expected
    lifecycle says, event by event: the builder is called once at the
    mount; a cycle whose dependencies the host finds changed calls the
    cleanup exactly once, with the value the builder returned for the
    build being replaced (which is what the cell holds unless the owner
    assigned to it), then clears the cell, then calls the builder and
    installs its result; any other cycle calls nothing.  The calls act on
    the world in that order, and while the owner assigns nothing the cell
    holds the value built last.  Teardown calls the cleanup of the last
    committed cycle exactly once more, with the value built last, and
    calls no builder. *)
Theorem cleanup_once_per_replacement_and_on_teardown
    (b0 c0 : fid) (d0 : DependencyList) (ts : list turn)
    (vs : list value) (h0 : host) :
  exists f0 h1 f h h2 h' o,
    expected_lifecycle (length (heap h0))
      (js_apply b0 [] (world h0)).1 d0 ts (js_apply b0 [] (world h0)).2 = o
    /\ cycle None
         {| builder := VFunction b0; cleanup := c0; dependencies := d0 |} h0
       = Returned (length (heap h0), f0, h1)
    /\ owned_run f0 ts h1 = Returned (f, h)
    /\ memoRef f = length (heap h0)
    /\ trace h = trace h0 ++
         [EvBuilder Commit (VFunction b0) (js_apply b0 [] (world h0)).1;
          EvAssign Commit (length (heap h0)) (js_apply b0 [] (world h0)).1]
         ++ o_events o
    /\ world h = o_world o
    /\ (Forall (fun t => t_assigned t = []) ts ->
        read_current (length (heap h0)) h = Returned (Held (o_built o)))
    /\ count_builds (o_events o)
       = replacements (length (heap h0)) d0 (turn_props <$> ts)
    /\ count_cleanups (o_events o)
       = replacements (length (heap h0)) d0 (turn_props <$> ts)
    /\ write_all (length (heap h0)) vs (enter Idle h) = Returned h2
    /\ unmount f h2 = Returned h'
    /\ trace h' = trace h ++
         (EvAssign Idle (length (heap h0)) <$> vs) ++
         [EvCleanup Unmount (List.last (t_cleanup <$> ts) c0) (o_built o);
          EvAssign Unmount (length (heap h0)) VNull]
    /\ world h'
       = (js_apply (List.last (t_cleanup <$> ts) c0) [o_built o]
            (o_world o)).2.
Proof.
  rewrite (cycle_mount
             {| builder := VFunction b0; cleanup := c0; dependencies := d0 |}
             b0 h0 eq_refl).
  cbn [cleanup dependencies].
  match goal with
  | |- context [Returned (_, ?f0, ?h1)] =>
      destruct (owned_run_expected ts f0 h1
                  (Held (js_apply b0 [] (world h0)).1)
                  (js_apply b0 [] (world h0)).1 d0)
        as (f & h & c & Hrun & Hm & Hl & Hd & Hcl & Ht & Hw & Hc);
        [ cbn; apply lookup_alloc_new | reflexivity | reflexivity | ];
      exists f0, h1, f, h
  end.
  cbn [memoRef cleanupImpl world trace] in *.
  destruct (write_all_wrapper_trace vs (length (heap h0)) c true
              (enter Idle h) Hl)
    as (h2 & c2 & Hwr & Hl2 & _ & Hw2 & Hph2 & Ht2).
  cbn [world trace current_phase enter] in Hw2, Ht2.
  eexists h2, _, _. split; [reflexivity|].
  split; [reflexivity|]. split; [exact Hrun|]. split; [exact Hm|].
  split; [by rewrite Ht, <- app_assoc|]. split; [exact Hw|].
  split.
  { intros Hall. rewrite (read_current_at _ _ _ Hl).
    by rewrite (Hc Hall eq_refl). }
  split; [apply expected_lifecycle_counts|].
  split; [apply expected_lifecycle_counts|].
  split; [exact Hwr|].
  split.
  { unfold unmount. rewrite Hd, Hcl.
    rewrite (effect_destroy_at _ c2 true) by exact Hl2. reflexivity. }
  cbn [trace world current_phase enter]. rewrite Ht2, Hw2, Hw.
  split; [by rewrite <- app_assoc | reflexivity].
Qed.

(** C3: in deferred rebuild-with-cleanup mode, a read of the cell returned
    by any render before the first commit throws the "not available
    during render phase" error ([UninitializedAccess]): right after the
    renders, after any assignments to the cell, and inside the first
    commit both while the builder runs and after its result is assigned
    but before the cell is marked initialised. *)
Theorem read_before_first_commit_throws
    (ps : list disposable_props) (vs : list value) (b : fid) (ref : addr)
    (h0 : host) :
  ref ∈ run_refs None (Speculate <$> ps) h0 ->
  exists h h' c,
    run None (Speculate <$> ps) h0 = Returned (None, h)
    /\ read_current ref h = Threw UninitializedAccess
    /\ write_all ref vs h = Returned h'
    /\ heap h' !! ref = Some (Wrapper c false)
    /\ read_current ref h' = Threw UninitializedAccess
    /\ exists v h1 h2,
         call_builder (VFunction b) (enter Commit h') = Returned (v, h1)
         /\ read_current ref h1 = Threw UninitializedAccess
         /\ write_current ref v h1 = Returned h2
         /\ read_current ref h2 = Threw UninitializedAccess.
Proof.
  intros Hin.
  destruct (run_speculate ps None h0) as (h & Hrun & Ht & Hw & Hh & Hrefs).
  rewrite Hrefs in Hin. apply elem_of_seq in Hin as [Hlo Hhi].
  assert (Hl : heap h !! ref = Some (Wrapper unique_symbol false)).
  { rewrite Hh, lookup_app_r by lia. apply lookup_replicate_2. lia. }
  destruct (write_all_wrapper vs ref unique_symbol false h Hl)
    as (h' & c & Hwr & Hl' & _).
  exists h, h', c. rewrite Hrun, Hwr.
  rewrite (read_current_at _ _ _ Hl), (read_current_at _ _ _ Hl').
  conjuncts.
  unfold call_builder. destruct (js_apply b [] (world (enter Commit h')))
    as [v w] eqn:Hap.
  eexists v, _, _. split; [reflexivity|].
  split; [by rewrite (read_current_at _ _ (Wrapper c false))|].
  rewrite (write_current_at _ _ _ (Wrapper c false)) by done.
  split; [reflexivity|].
  rewrite (read_current_at _ _ (Wrapper (Held v) false)); [done|].
  cbn. by eapply lookup_insert_hit.
Qed.

(** C6: in the deferred rebuild-with-cleanup mode of the three-hook
    version ([useDisposableStableRef]) a render calls neither the
    builder nor the cleanup: it leaves the trace and the world as they
    were and hands the pending dependency array [[ref, ...dependencies]]
    to the commit; this holds for any number of renders before the mount
    and after it, and over any interleaving of thrown-away renders and
    committed cycles every recorded event carries the commit phase. *)
Theorem builder_and_cleanup_only_in_commit
    (ps qs : list disposable_props) (p : disposable_props)
    (ss : list step) (site : option fiber) (q : disposable_props)
    (h0 hq : host) :
  Forall (fun q => isFunction (builder q) = true)
         (committed (Cycle p :: ss)) ->
  (trace (render site q hq).2 = trace hq
   /\ world (render site q hq).2 = world hq
   /\ p_deps (render site q hq).1.2
      = VObject (render site q hq).1.1 :: dependencies q)
  /\ exists h1 f h tr h2,
    run None (Speculate <$> ps) h0 = Returned (None, h1)
    /\ trace h1 = trace h0
    /\ world h1 = world h0
    /\ run None (Cycle p :: ss) h1 = Returned (Some f, h)
    /\ trace h = trace h1 ++ tr
    /\ Forall (fun e => event_phase e = Commit) tr
    /\ run (Some f) (Speculate <$> qs) h = Returned (Some f, h2)
    /\ trace h2 = trace h
    /\ world h2 = world h
    /\ heap h2 = heap h.
Proof.
  intros Hall. split.
  { destruct site; [rewrite render_mounted | rewrite render_unmounted];
      by cbn. }
  destruct (run_speculate ps None h0) as (h1 & Hrun1 & Ht1 & Hw1 & _ & _).
  destruct (run_mount p ss h1 Hall)
    as (f & h & v & tr & Hrun & Hm & Hs & Hc & Ht & Hmon & Hcb & Hcc
        & Hph & Hrefs).
  destruct (run_speculate qs (Some f) h) as (h2 & Hrun2 & Ht2 & Hw2 & Hh2 & _).
  rewrite app_nil_r in Hh2.
  exists h1, f, h, tr, h2. conjuncts.
Qed.

(** C5: in eager rebuild mode with callable builders, a run of cycles
    calls the builder once on the first cycle and once more on exactly the
    cycles at which [shallowCompare] finds the array recorded on the cycle
    before, as it is at that moment, different from the array passed.
    While the caller leaves the recorded array alone these are the cycles
    whose dependency sequence differs from the one of the cycle before;
    when all comparisons find equality the builder runs exactly once and
    the value built first is the one stored, the world being what that
    build left.  After the run the array of the last cycle is the one
    recorded; a further cycle records its own array, leaving value, trace
    and world untouched when the comparison finds equality and calling
    the builder once and storing its result when it does not. *)
Theorem eager_builds_once_per_change
    (p : eager_props) (ps : list eager_props) (q : eager_props)
    (h0 : host) :
  Forall (fun r => isFunction (e_builder r) = true) (p :: ps ++ [q]) ->
  exists f0 ref h tr v h',
    e_builder p = VFunction f0
    /\ eager_run None (p :: ps) h0 = Returned (Some ref, h)
    /\ trace h = trace h0 ++
         EvBuilder Render (VFunction f0) (js_apply f0 [] (world h0)).1
           :: EvAssign Render ref (js_apply f0 [] (world h0)).1 :: tr
    /\ count_builds tr = changes (e_array p) ps
    /\ (unmutated (e_array p) (e_dependencies p) ps ->
        count_builds tr = sequence_changes (e_dependencies p) ps)
    /\ (all_equal (e_array p) ps = true ->
        count_builds tr = 0
        /\ v = (js_apply f0 [] (world h0)).1
        /\ world h = (js_apply f0 [] (world h0)).2)
    /\ read_current ref h = Returned (Held v)
    /\ read_dependencies ref h
       = Returned (Some (List.last (e_array <$> ps) (e_array p)))
    /\ eager_cycle (Some ref) q h = Returned (ref, h')
    /\ read_dependencies ref h' = Returned (Some (e_array q))
    /\ (shallowCompare
          (Some (e_arrays q (List.last (e_array <$> ps) (e_array p))))
          (Some (e_dependencies q)) = true ->
        read_current ref h' = Returned (Held v)
        /\ trace h' = trace h /\ world h' = world h)
    /\ (shallowCompare
          (Some (e_arrays q (List.last (e_array <$> ps) (e_array p))))
          (Some (e_dependencies q)) = false ->
        exists f, e_builder q = VFunction f
          /\ trace h' = trace h ++
               [EvBuilder Render (VFunction f) (js_apply f [] (world h)).1;
                EvAssign Render ref (js_apply f [] (world h)).1]
          /\ world h' = (js_apply f [] (world h)).2
          /\ read_current ref h'
             = Returned (Held (js_apply f [] (world h)).1)).
Proof.
  intros Hall.
  inversion Hall as [|? ? Hp Hrest]; subst.
  apply Forall_app in Hrest as [Hps Hq].
  inversion Hq as [|? ? Hq' _]; subst.
  destruct (e_builder p) as [| | | | | |f] eqn:Hf; try discriminate.
  cbn [eager_run]. rewrite (eager_cycle_first p f h0 Hf).
  cbn [mbind completion_bind].
  match goal with
  | |- context [eager_run (Some ?ref) ps ?h1] =>
      destruct (eager_run_mounted ps ref
                  (js_apply f [] (world h0)).1 (e_array p) h1)
        as (h & v & tr & Hrun & Hl & Ht & Hc & Hv)
  end.
  { cbn. apply lookup_alloc_new. }
  { exact Hps. }
  cbn [trace world] in Ht, Hv.
  set (d := List.last (e_array <$> ps) (e_array p)) in *.
  destruct (e_builder q) as [| | | | | |g] eqn:Hg; try discriminate.
  assert (Hlt : length (heap h0) < length (heap h))
    by (by eapply lookup_lt_Some).
  destruct (shallowCompare (Some (e_arrays q d)) (Some (e_dependencies q)))
    eqn:Hcmp.
  all: eexists f, _, h, tr, v, _; rewrite Hrun.
  all: split; [reflexivity|].
  all: split; [reflexivity|].
  all: split; [by rewrite Ht, <- app_assoc|].
  all: split; [exact Hc|].
  all: split;
    [intros Hu; by rewrite Hc, (unmutated_changes _ _ _ Hu)|].
  all: split;
    [intros Ha; rewrite (all_equal_changes _ _ Ha) in Hc, Hv;
     destruct (Hv eq_refl) as [-> ->]; auto|].
  all: split; [by rewrite (read_current_at _ _ _ Hl)|].
  all: split; [unfold read_dependencies; by rewrite Hl|].
  - rewrite (eager_cycle_skip _ _ _ _ _ Hl)
      by (unfold shouldBuild; cbn; rewrite Hcmp; apply andb_false_r).
    split; [reflexivity|].
    unfold read_dependencies, read_current. cbn [heap with_heap enter].
    rewrite list_lookup_insert_eq by exact Hlt. cbn. conjuncts.
  - rewrite (eager_cycle_build _ _ _ _ g _ Hl Hg)
      by (unfold shouldBuild; rewrite Hg; cbn; by rewrite Hcmp).
    split; [reflexivity|].
    unfold read_dependencies, read_current. cbn [heap trace].
    rewrite list_lookup_insert_eq by exact Hlt.
    cbn [get_current get_dependencies]. conjuncts.
    intros _. exists g. conjuncts.
Qed.

(** C7: in the eager rebuild mode of the three-hook version
    ([useNonDisposableStableRef]), on a cycle whose guard asks for a rebuild
    (callable builder, and first run or changed dependencies) the builder
    is called inside the render: the hook returns with the host still in
    the render phase, the builder call and the assignment of its result
    are recorded in that phase, and a read of the cell right then returns
    the builder's result. *)
Theorem eager_builder_runs_in_render
    (memo : option addr) (q : eager_props) (h : host) :
  triggers_rebuild memo q h = true ->
  exists f ref h',
    e_builder q = VFunction f
    /\ eager_cycle memo q h = Returned (ref, h')
    /\ trace h' = trace h ++
         [EvBuilder Render (VFunction f) (js_apply f [] (world h)).1;
          EvAssign Render ref (js_apply f [] (world h)).1]
    /\ current_phase h' = Render
    /\ read_current ref h' = Returned (Held (js_apply f [] (world h)).1).
Proof.
  unfold triggers_rebuild. intros Ht. destruct memo as [ref|].
  - destruct (heap h !! ref) as [[|c d| |]|] eqn:Hl; try discriminate.
    destruct (shouldBuild_function _ _ _ Ht) as [f Hf].
    eexists f, ref, _. rewrite (eager_cycle_build _ _ _ _ f _ Hl Hf Ht).
    conjuncts. unfold read_current. cbn [heap].
    by rewrite (lookup_insert_hit _ _ _ _ Hl).
  - destruct (shouldBuild_function _ _ _ Ht) as [f Hf].
    eexists f, _, _. rewrite (eager_cycle_first q f h Hf).
    conjuncts. unfold read_current. cbn [heap].
    by rewrite lookup_alloc_new.
Qed.

(** C9: in eager rebuild mode, when no cycle's first argument is a
    function, the guard is false on every cycle, the run returns without
    throwing, nothing is called (trace and world are untouched), the
    dependency array of the last cycle is recorded, and a read of the cell
    returns the sentinel [unique_symbol] without an error. *)
Theorem non_callable_builder_leaves_sentinel
    (p : eager_props) (ps : list eager_props) (h0 : host) :
  Forall (fun q => isFunction (e_builder q) = false) (p :: ps) ->
  Forall (fun q => forall c d, shouldBuild c d q = false) (p :: ps)
  /\ exists ref h,
    eager_run None (p :: ps) h0 = Returned (Some ref, h)
    /\ trace h = trace h0
    /\ world h = world h0
    /\ read_current ref h = Returned unique_symbol
    /\ read_dependencies ref h
       = Returned (List.last (Some <$> (e_array <$> ps))
                     (Some (e_array p))).
Proof.
  intros Hall. split.
  { rewrite Forall_forall in Hall |- *. intros q Hq c d.
    unfold shouldBuild. by rewrite (Hall q Hq). }
  inversion Hall as [|? ? Hp Hps]; subst.
  cbn [eager_run]. rewrite (eager_cycle_first_inert p h0 Hp).
  cbn [mbind completion_bind].
  match goal with
  | |- context [eager_run (Some ?ref) ps ?h1] =>
      destruct (eager_run_inert ps ref (Some (e_array p)) h1)
        as (h & Hrun & Hl & Ht & Hw)
  end.
  { cbn. apply lookup_alloc_new. }
  { exact Hps. }
  exists (length (heap h0)), h. rewrite Hrun.
  unfold read_current, read_dependencies. rewrite Hl. conjuncts.
Qed.

(** C2: in each of the three modes the hook returns the same cell on
    every cycle of a call site: the address allocated on the first cycle.
    For the deferred mode the cycles after the mount may be committed or
    thrown away. *)
Theorem cell_identity_stable
    (v : value) (vs : list value)
    (p : eager_props) (ps : list eager_props)
    (q : disposable_props) (ss : list step) (h0 : host) :
  Forall (fun r => isFunction (builder r) = true)
         (committed (Cycle q :: ss)) ->
  simple_refs None (v :: vs) h0
    = replicate (S (length vs)) (length (heap h0))
  /\ eager_refs None (p :: ps) h0
     = replicate (S (length ps)) (length (heap h0))
  /\ run_refs None (Cycle q :: ss) h0
     = replicate (S (length ss)) (length (heap h0)).
Proof.
  intros Hall. split; [|split].
  - cbn [simple_refs]. rewrite simple_cycle_mount.
    match goal with
    | |- context [simple_refs (Some ?ref) vs ?h1] =>
        destruct (simple_run_mounted vs ref v h1)
          as (h & _ & _ & _ & _ & Hrefs)
    end.
    { cbn. apply lookup_alloc_new. }
    by rewrite Hrefs.
  - cbn [eager_refs]. rewrite eager_cycle_mount.
    destruct (shouldBuild unique_symbol None p) eqn:Hs.
    + destruct (shouldBuild_function _ _ _ Hs) as [f Hf].
      rewrite (eager_cycle_build _ unique_symbol None p f);
        [ | cbn; apply lookup_alloc_new | done | done ].
      match goal with
      | |- context [eager_refs (Some ?ref) ps ?h1] =>
          assert (Hl1 : exists c d, heap h1 !! ref = Some (StableRef c d))
      end.
      { eexists _, _. cbn. apply list_lookup_insert_eq.
        rewrite length_app. cbn. lia. }
      destruct Hl1 as (c & d & Hl1).
      destruct (eager_run_total ps _ _ _ _ Hl1)
        as (h & c' & d' & _ & _ & Hrefs).
      by rewrite Hrefs.
    + rewrite (eager_cycle_skip _ unique_symbol None p);
        [ | cbn; apply lookup_alloc_new | done ].
      match goal with
      | |- context [eager_refs (Some ?ref) ps ?h1] =>
          assert (Hl1 : exists c d, heap h1 !! ref = Some (StableRef c d))
      end.
      { eexists _, _. cbn. apply list_lookup_insert_eq.
        rewrite length_app. cbn. lia. }
      destruct Hl1 as (c & d & Hl1).
      destruct (eager_run_total ps _ _ _ _ Hl1)
        as (h & c' & d' & _ & _ & Hrefs).
      by rewrite Hrefs.
  - destruct (run_mount q ss h0 Hall)
      as (f & h & w & tr & _ & _ & _ & _ & _ & _ & _ & _ & _ & Hrefs).
    exact Hrefs.
Qed.

(** C8: when no dependency sequence is supplied [useStableRef] ends in
    [useSimpleRef] with its first argument as it is, callable or not;
    every cycle then assigns its argument to the cell and does nothing
    else (the trace grows by one assignment per cycle, the world is
    untouched: no builder, no cleanup; [useSimpleRef] has no comparator to
    call), the run never throws, and a read of the cell, a plain ref object
    that is initialised from its creation, succeeds with the argument of
    the latest cycle. *)
Theorem passthrough_overwrites_every_cycle
    (param1 : value) (param2 : option param2_t)
    (param3 : option DependencyList) (vs : list value) (h0 : host) :
  isNil (if isFunction2 param2 then param3 else as_dependencies param2)
    = true ->
  useStableRef param1 param2 param3 = UseSimpleRef param1
  /\ exists ref h,
    simple_run None (vs ++ [param1]) h0 = Returned (Some ref, h)
    /\ ref = length (heap h0)
    /\ read_current ref h = Returned (Held param1)
    /\ trace h = trace h0 ++ (EvAssign Render ref <$> (vs ++ [param1]))
    /\ world h = world h0.
Proof.
  intros Hnil. split.
  { unfold useStableRef.
    by destruct (if isFunction2 param2 then param3
                 else as_dependencies param2). }
  destruct (vs ++ [param1]) as [|v l] eqn:Hvs.
  { by destruct vs. }
  assert (Hlast : List.last (v :: l) v = param1).
  { rewrite <- Hvs. apply last_last. }
  cbn [simple_run]. rewrite simple_cycle_mount.
  cbn [mbind completion_bind].
  match goal with
  | |- context [simple_run (Some ?ref) l ?h1] =>
      destruct (simple_run_mounted l ref v h1)
        as (h & Hrun & Hl & Ht & Hw & _)
  end.
  { cbn. apply lookup_alloc_new. }
  exists (length (heap h0)), h. rewrite Hrun.
  rewrite (read_current_at _ _ _ Hl). cbn [trace world] in *.
  rewrite last_cons_default in Hlast. rewrite Hlast.
  conjuncts. rewrite Ht. cbn. by rewrite <- ?app_assoc.
Qed.

(** C10: an assignment to [current] succeeds on every cell object of
    every mode and in every state of it (uninitialised, ready, disposed):
    the setter returns, the slot then holds the assigned value, and on
    the heap the assignment returns and stores that object; the same
    holds where the getter of the deferred wrapper throws. *)
Theorem setter_never_throws
    (o : obj) (v : value) (ref : addr) (h : host) :
  heap h !! ref = Some o ->
  exists o' h',
    set_current v o = Returned o'
    /\ raw_current o' = Held v
    /\ write_current ref v h = Returned h'
    /\ heap h' !! ref = Some o'
    /\ (forall c, exists w,
          set_current v (Wrapper c false) = Returned w
          /\ get_current (Wrapper c false) = Threw UninitializedAccess
          /\ get_current w = Threw UninitializedAccess)
    /\ (exists w,
          set_current v (Wrapper unique_symbol true) = Returned w
          /\ get_current (Wrapper unique_symbol true) = Threw DisposedAccess).
Proof.
  intros Hl. rewrite (write_current_at _ _ _ _ Hl).
  destruct o as [c|c d|c i|c i]; cbn [set_current mbind completion_bind];
    eexists _, _; (split; [reflexivity|]); (split; [reflexivity|]);
    (split; [reflexivity|]);
    (split; [cbn; by eapply lookup_insert_hit|]);
    (split; [intros c0; by eexists | by eexists]).
Qed.
End Claims.

(** * Sample runs *)

#[local] Existing Instance sample_callbacks.
#[local] Existing Instance sample_shallowCompare.
#[local] Existing Instance sample_areHookInputsEqual.

(** The four end-to-end scenarios of the specification, run on the sample
    environment. *)

(** A: [useStableRef(42)], rerendered with [7]. *)
Example scenario_passthrough :
  simple_refs None [VNumber 42; VNumber 7] sample_host = [0; 0]
  /\ exists h,
      simple_run None [VNumber 42; VNumber 7] sample_host
        = Returned (Some 0, h)
      /\ read_current 0 h = Returned (Held (VNumber 7))
      /\ trace h = [EvAssign Render 0 (VNumber 42);
                    EvAssign Render 0 (VNumber 7)].
Proof. split; [reflexivity|]. eexists. by vm_compute. Qed.

(** B: [useStableRef(builder, [1])], rerendered with the same
    dependencies: one builder call. *)
Example scenario_eager_same_dependencies :
  exists h,
    eager_run None [eager_first; eager_first] sample_host
      = Returned (Some 0, h)
    /\ read_current 0 h = Returned (Held (VObject 100))
    /\ trace h = [EvBuilder Render (VFunction 1) (VObject 100);
                  EvAssign Render 0 (VObject 100)].
Proof. eexists. by vm_compute. Qed.

(** C: the dependencies change from [[1]] to [[2]]: two builder calls. *)
Example scenario_eager_changed_dependencies :
  exists h,
    eager_run None [eager_first; eager_changed] sample_host
      = Returned (Some 0, h)
    /\ read_current 0 h = Returned (Held (VObject 101))
    /\ trace h = [EvBuilder Render (VFunction 1) (VObject 100);
                  EvAssign Render 0 (VObject 100);
                  EvBuilder Render (VFunction 1) (VObject 101);
                  EvAssign Render 0 (VObject 101)].
Proof. eexists. by vm_compute. Qed.

(** D: [useStableRef(builder, cleanup, [1])], rerendered with [[2]], then
    unmounted. *)
Example scenario_disposable :
  exists h,
    lifetime [sample_first; sample_second] sample_host = Returned h
    /\ trace h = [EvBuilder Commit (VFunction 1) (VObject 100);
                  EvAssign Commit 0 (VObject 100);
                  EvCleanup Commit 2 (VObject 100);
                  EvAssign Commit 0 VNull;
                  EvBuilder Commit (VFunction 1) (VObject 102);
                  EvAssign Commit 0 (VObject 102);
                  EvCleanup Unmount 2 (VObject 102);
                  EvAssign Unmount 0 VNull].
Proof. eexists. by vm_compute. Qed.

(** A run with an owner: [useStableRef(builder, cleanup, [1])] is mounted,
    the owner assigns [5], the call site rerenders with [[2]], the owner
    assigns [6], and the scope is torn down: both cleanup calls get the
    built objects. *)
Example scenario_owner_assigns :
  exists f0 h1 f h h2 h',
    cycle None sample_first sample_host = Returned (0, f0, h1)
    /\ owned_run f0 [sample_turn] h1 = Returned (f, h)
    /\ write_all 0 [VNumber 6] (enter Idle h) = Returned h2
    /\ read_current 0 h2 = Returned (Held (VNumber 6))
    /\ unmount f h2 = Returned h'
    /\ trace h' = [EvBuilder Commit (VFunction 1) (VObject 100);
                   EvAssign Commit 0 (VObject 100);
                   EvAssign Idle 0 (VNumber 5);
                   EvCleanup Commit 2 (VObject 100);
                   EvAssign Commit 0 VNull;
                   EvBuilder Commit (VFunction 1) (VObject 102);
                   EvAssign Commit 0 (VObject 102);
                   EvAssign Idle 0 (VNumber 6);
                   EvCleanup Unmount 2 (VObject 102);
                   EvAssign Unmount 0 VNull]
    /\ o_events (expected_lifecycle 0 (VObject 100) [VNumber 1]
                   [sample_turn] 1)
       = [EvAssign Idle 0 (VNumber 5);
          EvCleanup Commit 2 (VObject 100);
          EvAssign Commit 0 VNull;
          EvBuilder Commit (VFunction 1) (VObject 102);
          EvAssign Commit 0 (VObject 102)].
Proof.
  eexists _, _, _, _, _, _.
  split; [vm_compute; reflexivity|]. split; [vm_compute; reflexivity|].
  split; [vm_compute; reflexivity|]. split; [vm_compute; reflexivity|].
  split; [vm_compute; reflexivity|]. split; by vm_compute.
Qed.

(** C4: after teardown the deferred cell does not throw the "was disposed"
    error ([DisposedAccess]): the destroy closure assigns [null], not the
    sentinel the getter tests for, so a read after the unmount of a mounted
    call site returns [null]. *)
Theorem disposed_cell_reads_null :
  exists h',
    lifetime [sample_first] sample_host = Returned h'
    /\ heap h' !! 0 = Some (Wrapper (Held VNull) true)
    /\ read_current 0 h' = Returned (Held VNull)
    /\ read_current 0 h' <> Threw DisposedAccess.
Proof. eexists. split; [vm_compute; reflexivity|]. by vm_compute. Qed.

(** C1, counterexample: the owner assigns [5] to a mounted cell, then a
    cycle with changed dependencies is committed.  The value being
    replaced, the one the cell holds, is [5]; the cleanup is called with
    the value the builder had returned. *)
Lemma cleanup_misses_assigned_value :
  exists f0 h1 h2 f h,
    cycle None sample_first sample_host = Returned (0, f0, h1)
    /\ write_all 0 [VNumber 5] (enter Idle h1) = Returned h2
    /\ read_current 0 h2 = Returned (Held (VNumber 5))
    /\ cycle (Some f0) sample_second h2 = Returned (0, f, h)
    /\ drop (length (trace h2)) (trace h)
       = [EvCleanup Commit 2 (VObject 100);
          EvAssign Commit 0 VNull;
          EvBuilder Commit (VFunction 1) (VObject 102);
          EvAssign Commit 0 (VObject 102)]
    /\ VObject 100 <> VNumber 5.
Proof.
  eexists _, _, _, _, _.
  split; [vm_compute; reflexivity|]. split; [vm_compute; reflexivity|].
  split; [vm_compute; reflexivity|]. split; [vm_compute; reflexivity|].
  split; [vm_compute; reflexivity|]. discriminate.
Qed.

(** C5, counterexample: the caller passes the array it passed on the
    cycle before, after changing it in place from [[1]] to [[2]].  The
    dependency sequence differs from the one of the cycle before, yet the
    builder is not called again: the hook compares the array with
    itself. *)
Lemma mutated_array_is_not_rebuilt :
  sequence_changes (e_dependencies eager_first) [eager_mutated] = 1
  /\ exists ref h,
      eager_run None [eager_first; eager_mutated] sample_host
        = Returned (Some ref, h)
      /\ trace h = [EvBuilder Render (VFunction 1) (VObject 100);
                    EvAssign Render 0 (VObject 100)]
      /\ count_builds (trace h) = 1
      /\ read_current ref h = Returned (Held (VObject 100)).
Proof.
  split; [reflexivity|]. eexists _, _.
  split; [vm_compute; reflexivity|]. by vm_compute.
Qed.

(** C6, counterexample: in the [useSyncExternalStore] variant the shape
    (builder, cleanup, dependencies) calls the builder during the first
    render, and the cleanup and the builder during a render with changed
    dependencies; nothing waits for a commit. *)
Lemma snapshot_variant_calls_during_render :
  exists site h,
    snapshot_run None [(args_first, 0); (args_second, 0)] sample_host
      = Returned (Some site, h)
    /\ trace h = [EvBuilder Render (VFunction 1) (VObject 100);
                  EvAssign Render 0 (VObject 100);
                  EvCleanup Render 2 (VObject 100);
                  EvBuilder Render (VFunction 1) (VObject 102);
                  EvAssign Render 0 (VObject 102)].
Proof. eexists _, _. split; [vm_compute; reflexivity|]. by vm_compute. Qed.

(** C7, counterexample: in the one-hook src/useStableRef.ts the shape
    (builder, dependencies) does not build in the render: the render
    calls nothing and a read of the returned cell throws; the builder is
    called by the commit. *)
Lemma legacy_eager_shape_builds_in_commit :
  exists pd h1 f h2,
    legacy_render None (VFunction 1) (Some (Param2Deps [VNumber 1])) None
      sample_host = Returned (0, Some pd, h1)
    /\ trace h1 = []
    /\ read_current 0 h1 = Threw UninitializedAccess
    /\ legacy_commit None pd h1 = Returned (f, h2)
    /\ trace h2 = [EvBuilder Commit (VFunction 1) (VObject 100);
                   EvAssign Commit 0 (VObject 100)]
    /\ read_current 0 h2 = Returned (Held (VObject 100)).
Proof.
  eexists _, _, _, _.
  split; [vm_compute; reflexivity|]. split; [vm_compute; reflexivity|].
  split; [vm_compute; reflexivity|]. split; [vm_compute; reflexivity|].
  by vm_compute.
Qed.

Lemma cell_identity_stable_witness :
  Forall (fun r => isFunction (builder r) = true)
         (committed (Cycle sample_first
                       :: [Speculate sample_second; Cycle sample_second]))
  /\ (simple_refs None (VNumber 42 :: [VNumber 7]) sample_host
        = replicate (S (length [VNumber 7])) (length (heap sample_host))
      /\ eager_refs None (eager_first :: [eager_changed]) sample_host
         = replicate (S (length [eager_changed])) (length (heap sample_host))
      /\ run_refs None
           (Cycle sample_first
              :: [Speculate sample_second; Cycle sample_second]) sample_host
         = replicate
             (S (length [Speculate sample_second; Cycle sample_second]))
             (length (heap sample_host))).
Proof.
  split; [repeat constructor|].
  apply (cell_identity_stable (VNumber 42) [VNumber 7]
           eager_first [eager_changed]
           sample_first [Speculate sample_second; Cycle sample_second]
           sample_host).
  repeat constructor.
Defined.

Lemma read_before_first_commit_throws_witness :
  1 ∈ run_refs None (Speculate <$> [sample_first; sample_first]) sample_host
  /\ exists h h' c,
      run None (Speculate <$> [sample_first; sample_first]) sample_host
        = Returned (None, h)
      /\ read_current 1 h = Threw UninitializedAccess
      /\ write_all 1 [VNumber 5] h = Returned h'
      /\ heap h' !! 1 = Some (Wrapper c false)
      /\ read_current 1 h' = Threw UninitializedAccess
      /\ exists v h1 h2,
           call_builder (VFunction 1) (enter Commit h') = Returned (v, h1)
           /\ read_current 1 h1 = Threw UninitializedAccess
           /\ write_current 1 v h1 = Returned h2
           /\ read_current 1 h2 = Threw UninitializedAccess.
Proof.
  assert (Hin : 1 ∈ run_refs None (Speculate <$> [sample_first; sample_first])
                       sample_host).
  { vm_compute. apply list_elem_of_further, list_elem_of_here. }
  split; [exact Hin|].
  exact (read_before_first_commit_throws
           [sample_first; sample_first] [VNumber 5] 1 1 sample_host Hin).
Defined.

Lemma eager_builds_once_per_change_witness :
  (Forall (fun r => isFunction (e_builder r) = true) (eager_first :: [eager_first] ++ [eager_changed]))
  /\ (exists f0 ref h tr v h',
    e_builder eager_first = VFunction f0
    /\ eager_run None (eager_first :: [eager_first]) sample_host = Returned (Some ref, h)
    /\ trace h = trace sample_host ++
         EvBuilder Render (VFunction f0) (js_apply f0 [] (world sample_host)).1
           :: EvAssign Render ref (js_apply f0 [] (world sample_host)).1 :: tr
    /\ count_builds tr = changes (e_array eager_first) [eager_first]
    /\ (unmutated (e_array eager_first) (e_dependencies eager_first) [eager_first] ->
        count_builds tr = sequence_changes (e_dependencies eager_first) [eager_first])
    /\ (all_equal (e_array eager_first) [eager_first] = true ->
        count_builds tr = 0
        /\ v = (js_apply f0 [] (world sample_host)).1
        /\ world h = (js_apply f0 [] (world sample_host)).2)
    /\ read_current ref h = Returned (Held v)
    /\ read_dependencies ref h
       = Returned (Some (List.last (e_array <$> [eager_first]) (e_array eager_first)))
    /\ eager_cycle (Some ref) eager_changed h = Returned (ref, h')
    /\ read_dependencies ref h' = Returned (Some (e_array eager_changed))
    /\ (shallowCompare
          (Some (e_arrays eager_changed (List.last (e_array <$> [eager_first]) (e_array eager_first))))
          (Some (e_dependencies eager_changed)) = true ->
        read_current ref h' = Returned (Held v)
        /\ trace h' = trace h /\ world h' = world h)
    /\ (shallowCompare
          (Some (e_arrays eager_changed (List.last (e_array <$> [eager_first]) (e_array eager_first))))
          (Some (e_dependencies eager_changed)) = false ->
        exists f, e_builder eager_changed = VFunction f
          /\ trace h' = trace h ++
               [EvBuilder Render (VFunction f) (js_apply f [] (world h)).1;
                EvAssign Render ref (js_apply f [] (world h)).1]
          /\ world h' = (js_apply f [] (world h)).2
          /\ read_current ref h'
             = Returned (Held (js_apply f [] (world h)).1))).
Proof.
  split;
    [first [reflexivity | solve [repeat constructor] | by vm_compute]|].
  apply (eager_builds_once_per_change
           eager_first [eager_first] eager_changed sample_host);
    first [reflexivity | solve [repeat constructor] | by vm_compute].
Defined.

Lemma builder_and_cleanup_only_in_commit_witness :
  Forall (fun q => isFunction (builder q) = true)
         (committed (Cycle sample_first
                       :: [Speculate sample_second; Cycle sample_second]))
  /\ ((trace (render None sample_first sample_host).2 = trace sample_host
       /\ world (render None sample_first sample_host).2 = world sample_host
       /\ p_deps (render None sample_first sample_host).1.2
          = VObject (render None sample_first sample_host).1.1
              :: dependencies sample_first)
      /\ exists h1 f h tr h2,
        run None (Speculate <$> [sample_first]) sample_host
          = Returned (None, h1)
        /\ trace h1 = trace sample_host
        /\ world h1 = world sample_host
        /\ run None (Cycle sample_first
                       :: [Speculate sample_second; Cycle sample_second]) h1
           = Returned (Some f, h)
        /\ trace h = trace h1 ++ tr
        /\ Forall (fun e => event_phase e = Commit) tr
        /\ run (Some f) (Speculate <$> [sample_second]) h
           = Returned (Some f, h2)
        /\ trace h2 = trace h
        /\ world h2 = world h
        /\ heap h2 = heap h).
Proof.
  split; [repeat constructor|].
  apply (builder_and_cleanup_only_in_commit
           [sample_first] [sample_second] sample_first
           [Speculate sample_second; Cycle sample_second]
           None sample_first sample_host sample_host).
  repeat constructor.
Defined.

Lemma eager_builder_runs_in_render_witness :
  triggers_rebuild None eager_first sample_host = true
  /\ exists f ref h',
      e_builder eager_first = VFunction f
      /\ eager_cycle None eager_first sample_host = Returned (ref, h')
      /\ trace h' = trace sample_host ++
           [EvBuilder Render (VFunction f)
              (js_apply f [] (world sample_host)).1;
            EvAssign Render ref (js_apply f [] (world sample_host)).1]
      /\ current_phase h' = Render
      /\ read_current ref h'
         = Returned (Held (js_apply f [] (world sample_host)).1).
Proof.
  split; [reflexivity|].
  apply (eager_builder_runs_in_render None eager_first sample_host).
  reflexivity.
Defined.

Lemma passthrough_overwrites_every_cycle_witness :
  isNil (if isFunction2 None then None else as_dependencies None) = true
  /\ (useStableRef (VFunction 3) None None = UseSimpleRef (VFunction 3)
      /\ exists ref h,
        simple_run None ([VNumber 42] ++ [VFunction 3]) sample_host
          = Returned (Some ref, h)
        /\ ref = length (heap sample_host)
        /\ read_current ref h = Returned (Held (VFunction 3))
        /\ trace h = trace sample_host ++
             (EvAssign Render ref <$> ([VNumber 42] ++ [VFunction 3]))
        /\ world h = world sample_host).
Proof.
  split; [reflexivity|].
  apply (passthrough_overwrites_every_cycle
           (VFunction 3) None None [VNumber 42] sample_host).
  reflexivity.
Defined.

Lemma non_callable_builder_leaves_sentinel_witness :
  Forall (fun q => isFunction (e_builder q) = false)
         (eager_inert :: [eager_inert])
  /\ (Forall (fun q => forall c d, shouldBuild c d q = false)
             (eager_inert :: [eager_inert])
      /\ exists ref h,
        eager_run None (eager_inert :: [eager_inert]) sample_host
          = Returned (Some ref, h)
        /\ trace h = trace sample_host
        /\ world h = world sample_host
        /\ read_current ref h = Returned unique_symbol
        /\ read_dependencies ref h
           = Returned (List.last (Some <$> (e_array <$> [eager_inert]))
                         (Some (e_array eager_inert)))).
Proof.
  split; [repeat constructor|].
  apply (non_callable_builder_leaves_sentinel
           eager_inert [eager_inert] sample_host).
  repeat constructor.
Defined.

Lemma setter_never_throws_witness :
  heap (with_heap [Wrapper (Held VNull) true] sample_host) !! 0
    = Some (Wrapper (Held VNull) true)
  /\ exists o' h',
      set_current (VNumber 9) (Wrapper (Held VNull) true) = Returned o'
      /\ raw_current o' = Held (VNumber 9)
      /\ write_current 0 (VNumber 9)
           (with_heap [Wrapper (Held VNull) true] sample_host) = Returned h'
      /\ heap h' !! 0 = Some o'
      /\ (forall c, exists w,
            set_current (VNumber 9) (Wrapper c false) = Returned w
            /\ get_current (Wrapper c false) = Threw UninitializedAccess
            /\ get_current w = Threw UninitializedAccess)
      /\ (exists w,
            set_current (VNumber 9) (Wrapper unique_symbol true) = Returned w
            /\ get_current (Wrapper unique_symbol true)
               = Threw DisposedAccess).
Proof.
  split; [reflexivity|].
  apply (setter_never_throws (Wrapper (Held VNull) true) (VNumber 9) 0
           (with_heap [Wrapper (Held VNull) true] sample_host)).
  reflexivity.
Defined.

(** * Further properties of the hooks *)

Section HookFacts.
Context `{Callbacks} `{ShallowCompare} `{HookInputs}.

(** X2: once a callable builder arrives after cycles whose first argument
    was no function, it is called on that very cycle, also when its
    dependencies compare equal to the recorded ones: the first run is
    recognised by the sentinel still being in the cell, not by the
    dependencies. *)
Theorem first_callable_builder_is_called
    (p : eager_props) (ps : list eager_props) (q : eager_props) (f : fid)
    (h0 : host) :
  Forall (fun r => isFunction (e_builder r) = false) (p :: ps) ->
  e_builder q = VFunction f ->
  exists ref h h',
    eager_run None (p :: ps) h0 = Returned (Some ref, h)
    /\ read_current ref h = Returned unique_symbol
    /\ eager_cycle (Some ref) q h = Returned (ref, h')
    /\ trace h' = trace h0 ++
         [EvBuilder Render (VFunction f) (js_apply f [] (world h0)).1;
          EvAssign Render ref (js_apply f [] (world h0)).1]
    /\ read_current ref h' = Returned (Held (js_apply f [] (world h0)).1).
Proof.
  intros Hall Hf. inversion Hall as [|? ? Hp Hps]; subst.
  cbn [eager_run]. rewrite (eager_cycle_first_inert p h0 Hp).
  cbn [mbind completion_bind].
  match goal with
  | |- context [eager_run (Some ?ref) ps ?h1] =>
      destruct (eager_run_inert ps ref (Some (e_array p)) h1)
        as (h & Hrun & Hl & Ht & Hw)
  end.
  { cbn. apply lookup_alloc_new. }
  { exact Hps. }
  cbn [trace world with_heap enter] in Ht, Hw.
  eexists (length (heap h0)), h, _. rewrite Hrun.
  split; [reflexivity|]. unfold read_current at 1. rewrite Hl.
  split; [reflexivity|].
  rewrite (eager_cycle_build _ _ _ _ f _ Hl Hf)
    by (unfold shouldBuild; by rewrite Hf).
  split; [reflexivity|]. cbn [trace]. rewrite Ht, Hw.
  split; [reflexivity|]. unfold read_current. cbn [heap].
  by rewrite (lookup_insert_hit _ _ _ _ Hl).
Qed.


(** While the host finds the dependencies unchanged, committed cycles and
    thrown-away renders leave heap, world and trace as they are, whatever
    builders and cleanups they supply. *)
Lemma run_settled_quiet ss : forall f h v d,
  settled f h v d ->
  replacements (memoRef f) d (committed ss) = 0 ->
  exists f' h',
    run (Some f) ss h = Returned (Some f', h')
    /\ memoRef f' = memoRef f
    /\ settled f' h' v (List.last (dependencies <$> committed ss) d)
    /\ cleanupImpl f' = List.last (cleanup <$> committed ss) (cleanupImpl f)
    /\ heap h' = heap h /\ world h' = world h /\ trace h' = trace h.
Proof.
  induction ss as [|[p|p] ss IH]; intros f h v d Hs Hz.
  - exists f, h. cbn. conjuncts.
  - change (committed (Speculate p :: ss)) with (committed ss) in *.
    cbn [run do_step]. unfold speculate. rewrite render_mounted.
    cbn [mbind completion_bind].
    destruct (IH f (enter Render h) v d)
      as (f' & h' & Hrun & Hm & Hs' & Hc & Hh & Hw & Ht);
      [by apply settled_enter | done |].
    exists f', h'. rewrite Hrun. conjuncts.
  - change (committed (Cycle p :: ss)) with (p :: committed ss) in *.
    change (dependencies <$> p :: committed ss)
      with (dependencies p :: (dependencies <$> committed ss)).
    change (cleanup <$> p :: committed ss)
      with (cleanup p :: (cleanup <$> committed ss)).
    rewrite !last_cons_default. cbn [replacements] in Hz.
    pose proof Hs as (Hl & Hd & Hdeps).
    destruct (areHookInputsEqual (VObject (memoRef f) :: dependencies p)
                (VObject (memoRef f) :: d)) eqn:Heq; [|lia].
    cbn [run do_step]. rewrite cycle_keep by (by rewrite Hdeps).
    cbn [mbind completion_bind].
    match goal with
    | |- context [run (Some ?f1) ss ?h1] =>
        destruct (IH f1 h1 v (dependencies p))
          as (f' & h' & Hrun & Hm & Hs' & Hc & Hh & Hw & Ht)
    end.
    { split; [exact Hl | split; [exact Hd | reflexivity]]. }
    { exact Hz. }
    cbn [memoRef cleanupImpl] in *.
    exists f', h'. rewrite Hrun. conjuncts.
Qed.

(** X3: [useDisposableStableRef] calls its builder unguarded.  With a first
    argument that is no function the first commit throws a [TypeError]; a
    later commit throws it only when the dependencies changed, and then
    after the old value was cleaned up and the cell set to [null]; with
    unchanged dependencies the cycle passes and calls nothing. *)
Theorem disposable_builder_call_is_unguarded
    (p : disposable_props) (ps : list disposable_props)
    (q : disposable_props) (h0 : host) :
  Forall (fun r => isFunction (builder r) = true) (p :: ps) ->
  isFunction (builder q) = false ->
  cycle None q h0 = Threw NotAFunction
  /\ exists f h v,
      run None (Cycle <$> p :: ps) h0 = Returned (Some f, h)
      /\ read_current (memoRef f) h = Returned (Held v)
      /\ (areHookInputsEqual
            (VObject (memoRef f) :: dependencies q) (effectDeps f) = true ->
          exists f1 h1,
            cycle (Some f) q h = Returned (memoRef f, f1, h1)
            /\ trace h1 = trace h
            /\ read_current (memoRef f) h1 = Returned (Held v))
      /\ (areHookInputsEqual
            (VObject (memoRef f) :: dependencies q) (effectDeps f) = false ->
          cycle (Some f) q h = Threw NotAFunction
          /\ exists h1,
               effect_destroy (effectDestroy f) (cleanup q)
                 (enter Commit (enter Render h)) = Returned h1
               /\ trace h1 = trace h ++
                    [EvCleanup Commit (cleanup q) v;
                     EvAssign Commit (memoRef f) VNull]
               /\ read_current (memoRef f) h1 = Returned (Held VNull)
               /\ effect_create (memoRef f) (builder q) h1
                  = Threw NotAFunction).
Proof.
  intros Hall Hq.
  assert (Hcall : forall hh, call_builder (builder q) hh = Threw NotAFunction).
  { intros hh. unfold call_builder. by destruct (builder q). }
  split.
  { unfold cycle. rewrite render_unmounted. unfold commit, effect_create.
    cbn [p_ref p_builder p_cleanup p_deps]. by rewrite Hcall. }
  destruct (run_mount p (Cycle <$> ps) h0)
    as (f & h & v & tr & Hrun & Hm & Hs & _).
  { cbn. by rewrite committed_cycles. }
  pose proof Hs as (Hl & Hd & Hdeps).
  exists f, h, v. change (Cycle <$> p :: ps) with (Cycle p :: (Cycle <$> ps)).
  split; [exact Hrun|]. split; [by rewrite (read_current_at _ _ _ Hl)|].
  split.
  - intros Heq. eexists _, _. rewrite (cycle_keep _ _ _ Heq).
    split; [reflexivity|]. split; [done|].
    unfold read_current. cbn. by rewrite Hl.
  - intros Hne.
    assert (Hdes : effect_destroy (effectDestroy f) (cleanup q)
                     (enter Commit (enter Render h)) =
              Returned
                {| heap := <[memoRef f := Wrapper (Held VNull) true]> (heap h);
                   world := (js_apply (cleanup q) [v] (world h)).2;
                   current_phase := Commit;
                   trace := trace h ++
                     [EvCleanup Commit (cleanup q) v;
                      EvAssign Commit (memoRef f) VNull] |}).
    { rewrite Hd. by rewrite (effect_destroy_at _ (Held v) true) by exact Hl. }
    split.
    + unfold cycle. rewrite render_mounted. unfold commit.
      cbn [p_ref p_builder p_cleanup p_deps]. rewrite Hne, Hdes.
      cbn [mbind completion_bind]. unfold effect_create. by rewrite Hcall.
    + eexists. split; [exact Hdes|]. split; [reflexivity|].
      split; [unfold read_current; cbn;
              by rewrite (lookup_insert_hit _ _ _ _ Hl)|].
      unfold effect_create. by rewrite Hcall.
Qed.


(** X6: teardown leaves a cell that works like any other: with
    [isInitialized] still set and [null] in the slot, a read returns
    [null], an assignment succeeds, and the next read returns the assigned
    value. *)
Theorem cell_usable_after_teardown
    (p : disposable_props) (ps : list disposable_props) (x : value)
    (h0 : host) :
  Forall (fun r => isFunction (builder r) = true) (p :: ps) ->
  exists h h',
    lifetime (p :: ps) h0 = Returned h
    /\ heap h !! length (heap h0) = Some (Wrapper (Held VNull) true)
    /\ read_current (length (heap h0)) h = Returned (Held VNull)
    /\ write_current (length (heap h0)) x h = Returned h'
    /\ read_current (length (heap h0)) h' = Returned (Held x).
Proof.
  intros Hall.
  destruct (run_mount p (Cycle <$> ps) h0)
    as (f & h & v & tr & Hrun & Hm & (Hl & Hd & _) & _).
  { cbn. by rewrite committed_cycles. }
  unfold lifetime. change (Cycle <$> p :: ps) with (Cycle p :: (Cycle <$> ps)).
  rewrite Hrun. cbn [mbind completion_bind]. unfold unmount. rewrite Hd.
  rewrite (effect_destroy_at _ (Held v) true) by exact Hl.
  rewrite <- Hm. eexists _, _. split; [reflexivity|].
  assert (Hl' : forall o,
            <[memoRef f := o]> (heap h) !! memoRef f = Some o)
    by (intros o; by eapply lookup_insert_hit).
  unfold read_current, write_current. cbn. rewrite !Hl'. cbn.
  split; [reflexivity|]. split; [reflexivity|]. split; [reflexivity|].
  cbn. by rewrite list_insert_insert_eq, Hl'.
Qed.

(** X7: with dependencies the host finds unchanged on every cycle, as with
    the empty list the demo application passes, the builder runs once, in
    the first commit, and nothing else is ever called before the teardown:
    later builders and cleanups, whatever they are, are not invoked, and
    every cycle reads the value built first. *)
Theorem constant_dependencies_build_once
    (p : disposable_props) (b : fid) (ss : list step) (h0 : host) :
  builder p = VFunction b ->
  replacements (length (heap h0)) (dependencies p) (committed ss) = 0 ->
  exists f h,
    run None (Cycle p :: ss) h0 = Returned (Some f, h)
    /\ memoRef f = length (heap h0)
    /\ trace h = trace h0 ++
         [EvBuilder Commit (VFunction b) (js_apply b [] (world h0)).1;
          EvAssign Commit (memoRef f) (js_apply b [] (world h0)).1]
    /\ world h = (js_apply b [] (world h0)).2
    /\ read_current (memoRef f) h
       = Returned (Held (js_apply b [] (world h0)).1)
    /\ cleanupImpl f = List.last (cleanup <$> committed ss) (cleanup p).
Proof.
  intros Hb Hz. cbn [run do_step]. rewrite (cycle_mount p b h0 Hb).
  cbn [mbind completion_bind].
  match goal with
  | |- context [run (Some ?f1) ss ?h1] =>
      destruct (run_settled_quiet ss f1 h1
                  (js_apply b [] (world h0)).1 (dependencies p))
        as (f & h & Hrun & Hm & (Hl & _) & Hc & Hh & Hw & Ht)
  end.
  { split; [cbn; apply lookup_alloc_new | by split]. }
  { exact Hz. }
  cbn [memoRef cleanupImpl heap world trace] in *.
  exists f, h. rewrite Hrun, Hm, Ht, Hw. conjuncts.
  rewrite <- Hm. by rewrite (read_current_at _ _ _ Hl).
Qed.
End HookFacts.

(** * Further properties of the one-hook variant *)

Section LegacyRunFacts.
Context `{Callbacks} `{HookInputs}.


Lemma legacy_cycle_passthrough site ref c i a h :
  ls_ref site = ref ->
  heap h !! ref = Some (PlainWrapper c i) ->
  args_dependencies a = None ->
  legacy_cycle (Some site) a h =
    Returned (ref,
              {| ls_ref := ref; ls_effect := ls_effect site |},
              emit (EvAssign Render ref (arg1 a))
                   (with_heap (<[ref := PlainWrapper (arg1 a) true]> (heap h))
                              (enter Render h))).
Proof.
  intros Hr Hl Hd. unfold legacy_cycle, legacy_render, legacy_useStableRef.
  unfold args_dependencies in Hd. rewrite Hd. cbn. rewrite Hr.
  unfold write_current. cbn. rewrite Hl. cbn.
  unfold write_isInitialized. cbn.
  rewrite (lookup_insert_hit _ _ _ _ Hl). cbn.
  by rewrite list_insert_insert_eq.
Qed.

Lemma legacy_run_passthrough ps : forall site ref c i h,
  ls_ref site = ref ->
  heap h !! ref = Some (PlainWrapper c i) ->
  Forall (fun a => args_dependencies a = None) ps ->
  exists h',
    legacy_run (Some site) ps h
      = Returned (Some {| ls_ref := ref; ls_effect := ls_effect site |}, h')
    /\ heap h' !! ref
       = Some (PlainWrapper (List.last (arg1 <$> ps) c)
                 (if ps is [] then i else true))
    /\ trace h' = trace h ++ (EvAssign Render ref <$> (arg1 <$> ps))
    /\ world h' = world h
    /\ legacy_refs (Some site) ps h = replicate (length ps) ref.
Proof.
  induction ps as [|a ps IH]; intros site ref c i h Hr Hl Hall.
  - exists h. cbn. rewrite app_nil_r. destruct site; cbn in *; subst.
    conjuncts.
  - inversion Hall as [|? ? Ha Hps]; subst.
    change (arg1 <$> a :: ps) with (arg1 a :: (arg1 <$> ps)).
    rewrite last_cons_default. cbn [legacy_run legacy_refs].
    rewrite (legacy_cycle_passthrough _ _ _ _ _ _ eq_refl Hl Ha).
    cbn [mbind completion_bind].
    match goal with
    | |- context [legacy_run (Some ?s1) ps ?h1] =>
        destruct (IH s1 (ls_ref site) (arg1 a) true h1)
          as (h' & Hrun & Hh & Ht & Hw & Hrefs); [done | | done |]
    end.
    { cbn. by eapply lookup_insert_hit. }
    exists h'. rewrite Hrun, Hrefs, Hh, Ht, Hw. cbn.
    rewrite <- app_assoc. conjuncts. by destruct ps.
Qed.

(** X8: in the one-hook variant a call without dependencies assigns its
    argument during the render and marks the wrapper initialised, on every
    cycle: the same cell is returned each time, a read returns the latest
    argument (functions are stored, not called), no effect is registered,
    and the teardown does nothing. *)
Theorem legacy_passthrough_overwrites_every_cycle
    (a : hook_args) (ps : list hook_args) (h0 : host) :
  Forall (fun r => args_dependencies r = None) (a :: ps) ->
  exists site h,
    legacy_run None (a :: ps) h0 = Returned (Some site, h)
    /\ ls_ref site = length (heap h0)
    /\ ls_effect site = None
    /\ legacy_refs None (a :: ps) h0
       = replicate (S (length ps)) (length (heap h0))
    /\ heap h !! ls_ref site
       = Some (PlainWrapper (List.last (arg1 <$> ps) (arg1 a)) true)
    /\ read_current (ls_ref site) h
       = Returned (Held (List.last (arg1 <$> ps) (arg1 a)))
    /\ trace h = trace h0 ++
         (EvAssign Render (ls_ref site) <$> (arg1 <$> a :: ps))
    /\ world h = world h0
    /\ legacy_teardown site h = h.
Proof.
  intros Hall. inversion Hall as [|? ? Ha Hps]; subst.
  cbn [legacy_run legacy_refs]. unfold legacy_cycle.
  rewrite legacy_passthrough_mount
    by (fold (args_dependencies a); by rewrite Ha).
  cbn [mbind completion_bind option_bind fmap option_fmap option_map].
  match goal with
  | |- context [legacy_run (Some ?s1) ps ?h1] =>
      destruct (legacy_run_passthrough ps s1 (length (heap h0))
                  (arg1 a) true h1)
        as (h & Hrun & Hh & Ht & Hw & Hrefs); [done | | done |]
  end.
  { cbn. apply lookup_alloc_new. }
  exists {| ls_ref := length (heap h0); ls_effect := None |}, h.
  rewrite Hrun, Hrefs. cbn [ls_ref ls_effect].
  cbn [trace world emit with_heap enter] in Ht, Hw.
  assert (Hh' : heap h !! length (heap h0)
                = Some (PlainWrapper (List.last (arg1 <$> ps) (arg1 a)) true)).
  { destruct ps; exact Hh. }
  rewrite (read_current_at _ _ _ Hh'). conjuncts.
  rewrite Ht, <- app_assoc. done.
Qed.




(** X10: the one-hook variant calls its first argument unguarded in the
    effect: with dependencies and a first argument that is no function the
    render passes, but the first commit throws a [TypeError]. *)
Theorem legacy_builder_call_is_unguarded
    (a : hook_args) (d : DependencyList) (h0 : host) :
  args_dependencies a = Some d ->
  isFunction (arg1 a) = false ->
  exists pd h1,
    legacy_render None (arg1 a) (arg2 a) (arg3 a) h0
      = Returned (length (heap h0), Some pd, h1)
    /\ trace h1 = trace h0
    /\ legacy_commit None pd h1 = Threw NotAFunction
    /\ legacy_cycle None a h0 = Threw NotAFunction.
Proof.
  intros Hd Hf.
  destruct (legacy_render_defers (arg1 a) (arg2 a) (arg3 a) d h0 Hd)
    as (h1 & Hr & Ht & _).
  assert (Hc : forall pd, lp_computeState pd = arg1 a ->
            legacy_commit None pd h1 = Threw NotAFunction).
  { intros pd Hpd. unfold legacy_commit, legacy_effect_create, call_builder.
    rewrite Hpd. by destruct (arg1 a). }
  eexists _, h1. split; [exact Hr|]. split; [exact Ht|].
  split; [by apply Hc|].
  unfold legacy_cycle. cbn [fmap option_fmap option_map].
  rewrite Hr. cbn [mbind completion_bind option_bind].
  by rewrite Hc.
Qed.
End LegacyRunFacts.

(** * Properties of the [useSyncExternalStore] variant *)

Section SnapshotFacts.
Context `{Callbacks} `{ShallowCompare}.













End SnapshotFacts.

(** * Properties of the memo-by-dependencies variant *)

Section MemoFacts.
Context `{Callbacks} `{ShallowCompare} `{HookInputs}.






Lemma count_replicate_assign n ph ref v :
  count_builds (replicate n (EvAssign ph ref v)) = 0
  /\ count_cleanups (replicate n (EvAssign ph ref v)) = 0.
Proof. induction n as [|n [IHb IHc]]; [done|]. split; [exact IHb | exact IHc]. Qed.

(** One render without dependencies: the host makes the memo anew. *)
Lemma memo_render_passthrough site a calls h0 :
  args_dependencies a = None ->
  exists site' h,
    memo_render site a calls h0 = Returned (length (heap h0), site', h)
    /\ heap h = heap h0 ++ [StableRef (Held (arg1 a)) None]
    /\ world h = world h0
    /\ trace h = trace h0
         ++ replicate (S calls) (EvAssign Render (length (heap h0)) (arg1 a)).
Proof.
  intros Hdeps. unfold memo_render, memo_kept. rewrite Hdeps.
  assert (Hk : match site with Some _ => None | None => None end
               = (None : option memo_site)) by (by destruct site).
  rewrite Hk. cbn [alloc enter heap with_heap].
  set (h1 := with_heap _ _).
  assert (Hgen : forall n h,
    heap h = heap h0 ++ [StableRef (Held (arg1 a)) None]
    \/ heap h = heap h0 ++ [StableRef unique_symbol None] ->
    current_phase h = Render ->
    n <> 0 ->
    exists h',
      memo_snapshots n (arg1 a) VUndefined (args_cleanup a)
        (site ≫= mm_previousDependencies) None (length (heap h0)) h
        = Returned h'
      /\ heap h' = heap h0 ++ [StableRef (Held (arg1 a)) None]
      /\ world h' = world h
      /\ trace h' = trace h
           ++ replicate n (EvAssign Render (length (heap h0)) (arg1 a))).
  { induction n as [|n IH]; intros h Hh Hph Hn; [done|].
    cbn [memo_snapshots memo_getSnapshot]. unfold write_current.
    assert (Hw : exists c, heap h = heap h0 ++ [StableRef c None])
      by (destruct Hh; eauto).
    destruct Hw as [c Hhc]. rewrite Hhc, lookup_alloc_new.
    cbn [set_current mbind completion_bind]. rewrite insert_alloc_new, Hph.
    destruct n as [|n].
    - eexists. split; [reflexivity|]. cbn. conjuncts.
    - match goal with
      | |- context [memo_snapshots (S n) _ _ _ _ _ _ ?h2] =>
          destruct (IH h2) as (h' & Hrun & Hh' & Hw' & Ht');
            [by left | done | done | ]
      end.
      exists h'. rewrite Hrun. conjuncts.
      rewrite Ht'. cbn [trace emit with_heap].
      by rewrite <- app_assoc. }
  destruct (Hgen (S calls) h1) as (h & Hrun & Hh & Hw & Ht);
    [by right | done | done | ].
  rewrite Hrun. cbn [mbind completion_bind].
  eexists _, h. split; [reflexivity|]. conjuncts.
Qed.

(** X16: without dependencies the memo-by-dependencies variant returns a
    new cell on every render: the object of the render before is left
    with the argument of that render, and the new argument goes into a
    different object.  Nothing is called. *)
Theorem memo_passthrough_cell_is_not_stable
    (site : option memo_site) (a1 a2 : hook_args) (calls1 calls2 : nat)
    (h0 : host) :
  args_dependencies a1 = None ->
  args_dependencies a2 = None ->
  exists r1 site1 h1 r2 site2 h2,
    memo_render site a1 calls1 h0 = Returned (r1, site1, h1)
    /\ memo_render (Some site1) a2 calls2 h1 = Returned (r2, site2, h2)
    /\ r1 <> r2
    /\ read_current r1 h2 = Returned (Held (arg1 a1))
    /\ read_current r2 h2 = Returned (Held (arg1 a2))
    /\ world h2 = world h0
    /\ count_builds (drop (length (trace h0)) (trace h2)) = 0
    /\ count_cleanups (drop (length (trace h0)) (trace h2)) = 0.
Proof.
  intros Hd1 Hd2.
  destruct (memo_render_passthrough site a1 calls1 h0 Hd1)
    as (site1 & h1 & Hr1 & Hh1 & Hw1 & Ht1).
  destruct (memo_render_passthrough (Some site1) a2 calls2 h1 Hd2)
    as (site2 & h2 & Hr2 & Hh2 & Hw2 & Ht2).
  exists (length (heap h0)), site1, h1, (length (heap h1)), site2, h2.
  assert (Hlen : length (heap h1) = S (length (heap h0)))
    by (rewrite Hh1, length_app; cbn; lia).
  conjuncts.
  - lia.
  - unfold read_current. rewrite Hh2, Hh1.
    rewrite lookup_app_l by (rewrite length_app; cbn; lia).
    by rewrite lookup_alloc_new.
  - unfold read_current. rewrite Hh2. by rewrite lookup_alloc_new.
  - congruence.
  - rewrite Ht2, Ht1, <- app_assoc, drop_app_length.
    rewrite count_builds_app.
    by rewrite !(proj1 (count_replicate_assign _ _ _ _)).
  - rewrite Ht2, Ht1, <- app_assoc, drop_app_length.
    rewrite count_cleanups_app.
    by rewrite !(proj2 (count_replicate_assign _ _ _ _)).
Qed.
End MemoFacts.

(** * Sample runs of the further properties *)

Lemma first_callable_builder_is_called_witness :
  (Forall (fun r => isFunction (e_builder r) = false) (eager_inert :: []))
  /\ (e_builder eager_first = VFunction 1)
  /\ (exists ref h h',
    eager_run None (eager_inert :: []) sample_host = Returned (Some ref, h)
    /\ read_current ref h = Returned unique_symbol
    /\ eager_cycle (Some ref) eager_first h = Returned (ref, h')
    /\ trace h' = trace sample_host ++
         [EvBuilder Render (VFunction 1) (js_apply 1 [] (world sample_host)).1;
          EvAssign Render ref (js_apply 1 [] (world sample_host)).1]
    /\ read_current ref h' = Returned (Held (js_apply 1 [] (world sample_host)).1)).
Proof.
  split;
    [first [reflexivity | solve [repeat constructor] | by vm_compute]|].
  split;
    [first [reflexivity | solve [repeat constructor] | by vm_compute]|].
  apply (first_callable_builder_is_called
           eager_inert [] eager_first 1 sample_host);
    first [reflexivity | solve [repeat constructor] | by vm_compute].
Defined.

Lemma disposable_builder_call_is_unguarded_witness :
  (Forall (fun r => isFunction (builder r) = true) (sample_first :: []))
  /\ (isFunction (builder sample_inert) = false)
  /\ (cycle None sample_inert sample_host = Threw NotAFunction
  /\ exists f h v,
      run None (Cycle <$> sample_first :: []) sample_host = Returned (Some f, h)
      /\ read_current (memoRef f) h = Returned (Held v)
      /\ (areHookInputsEqual
            (VObject (memoRef f) :: dependencies sample_inert) (effectDeps f) = true ->
          exists f1 h1,
            cycle (Some f) sample_inert h = Returned (memoRef f, f1, h1)
            /\ trace h1 = trace h
            /\ read_current (memoRef f) h1 = Returned (Held v))
      /\ (areHookInputsEqual
            (VObject (memoRef f) :: dependencies sample_inert) (effectDeps f) = false ->
          cycle (Some f) sample_inert h = Threw NotAFunction
          /\ exists h1,
               effect_destroy (effectDestroy f) (cleanup sample_inert)
                 (enter Commit (enter Render h)) = Returned h1
               /\ trace h1 = trace h ++
                    [EvCleanup Commit (cleanup sample_inert) v;
                     EvAssign Commit (memoRef f) VNull]
               /\ read_current (memoRef f) h1 = Returned (Held VNull)
               /\ effect_create (memoRef f) (builder sample_inert) h1
                  = Threw NotAFunction)).
Proof.
  split;
    [first [reflexivity | solve [repeat constructor] | by vm_compute]|].
  split;
    [first [reflexivity | solve [repeat constructor] | by vm_compute]|].
  apply (disposable_builder_call_is_unguarded
           sample_first [] sample_inert sample_host);
    first [reflexivity | solve [repeat constructor] | by vm_compute].
Defined.


Lemma cell_usable_after_teardown_witness :
  (Forall (fun r => isFunction (builder r) = true) (sample_first :: [sample_second]))
  /\ (exists h h',
    lifetime (sample_first :: [sample_second]) sample_host = Returned h
    /\ heap h !! length (heap sample_host) = Some (Wrapper (Held VNull) true)
    /\ read_current (length (heap sample_host)) h = Returned (Held VNull)
    /\ write_current (length (heap sample_host)) (VNumber 5) h = Returned h'
    /\ read_current (length (heap sample_host)) h' = Returned (Held (VNumber 5))).
Proof.
  split;
    [first [reflexivity | solve [repeat constructor] | by vm_compute]|].
  apply (cell_usable_after_teardown
           sample_first [sample_second] (VNumber 5) sample_host);
    first [reflexivity | solve [repeat constructor] | by vm_compute].
Defined.

Lemma constant_dependencies_build_once_witness :
  (builder sample_first = VFunction 1)
  /\ (replacements (length (heap sample_host)) (dependencies sample_first) (committed [Cycle sample_first; Speculate sample_second]) = 0)
  /\ (exists f h,
    run None (Cycle sample_first :: [Cycle sample_first; Speculate sample_second]) sample_host = Returned (Some f, h)
    /\ memoRef f = length (heap sample_host)
    /\ trace h = trace sample_host ++
         [EvBuilder Commit (VFunction 1) (js_apply 1 [] (world sample_host)).1;
          EvAssign Commit (memoRef f) (js_apply 1 [] (world sample_host)).1]
    /\ world h = (js_apply 1 [] (world sample_host)).2
    /\ read_current (memoRef f) h
       = Returned (Held (js_apply 1 [] (world sample_host)).1)
    /\ cleanupImpl f = List.last (cleanup <$> committed [Cycle sample_first; Speculate sample_second]) (cleanup sample_first)).
Proof.
  split;
    [first [reflexivity | solve [repeat constructor] | by vm_compute]|].
  split;
    [first [reflexivity | solve [repeat constructor] | by vm_compute]|].
  apply (constant_dependencies_build_once
           sample_first 1 [Cycle sample_first; Speculate sample_second] sample_host);
    first [reflexivity | solve [repeat constructor] | by vm_compute].
Defined.

Lemma legacy_passthrough_overwrites_every_cycle_witness :
  (Forall (fun r => args_dependencies r = None) (args_value :: [args_value_cleanup]))
  /\ (exists site h,
    legacy_run None (args_value :: [args_value_cleanup]) sample_host = Returned (Some site, h)
    /\ ls_ref site = length (heap sample_host)
    /\ ls_effect site = None
    /\ legacy_refs None (args_value :: [args_value_cleanup]) sample_host
       = replicate (S (length [args_value_cleanup])) (length (heap sample_host))
    /\ heap h !! ls_ref site
       = Some (PlainWrapper (List.last (arg1 <$> [args_value_cleanup]) (arg1 args_value)) true)
    /\ read_current (ls_ref site) h
       = Returned (Held (List.last (arg1 <$> [args_value_cleanup]) (arg1 args_value)))
    /\ trace h = trace sample_host ++
         (EvAssign Render (ls_ref site) <$> (arg1 <$> args_value :: [args_value_cleanup]))
    /\ world h = world sample_host
    /\ legacy_teardown site h = h).
Proof.
  split;
    [first [reflexivity | solve [repeat constructor] | by vm_compute]|].
  apply (legacy_passthrough_overwrites_every_cycle
           args_value [args_value_cleanup] sample_host);
    first [reflexivity | solve [repeat constructor] | by vm_compute].
Defined.


Lemma legacy_builder_call_is_unguarded_witness :
  (args_dependencies args_inert = Some [VNumber 1])
  /\ (isFunction (arg1 args_inert) = false)
  /\ (exists pd h1,
    legacy_render None (arg1 args_inert) (arg2 args_inert) (arg3 args_inert) sample_host
      = Returned (length (heap sample_host), Some pd, h1)
    /\ trace h1 = trace sample_host
    /\ legacy_commit None pd h1 = Threw NotAFunction
    /\ legacy_cycle None args_inert sample_host = Threw NotAFunction).
Proof.
  split;
    [first [reflexivity | solve [repeat constructor] | by vm_compute]|].
  split;
    [first [reflexivity | solve [repeat constructor] | by vm_compute]|].
  apply (legacy_builder_call_is_unguarded
           args_inert [VNumber 1] sample_host);
    first [reflexivity | solve [repeat constructor] | by vm_compute].
Defined.






Lemma memo_passthrough_cell_is_not_stable_witness :
  (args_dependencies args_value = None)
  /\ (args_dependencies args_other = None)
  /\ (exists r1 site1 h1 r2 site2 h2,
    memo_render None args_value 0 sample_host = Returned (r1, site1, h1)
    /\ memo_render (Some site1) args_other 0 h1 = Returned (r2, site2, h2)
    /\ r1 <> r2
    /\ read_current r1 h2 = Returned (Held (arg1 args_value))
    /\ read_current r2 h2 = Returned (Held (arg1 args_other))
    /\ world h2 = world sample_host
    /\ count_builds (drop (length (trace sample_host)) (trace h2)) = 0
    /\ count_cleanups (drop (length (trace sample_host)) (trace h2)) = 0).
Proof.
  split;
    [first [reflexivity | solve [repeat constructor] | by vm_compute]|].
  split;
    [first [reflexivity | solve [repeat constructor] | by vm_compute]|].
  apply (memo_passthrough_cell_is_not_stable
           None args_value args_other 0 0 sample_host);
    first [reflexivity | solve [repeat constructor] | by vm_compute].
Defined.
